(** * Real-time chat relay: the Socket.IO handlers over the MongoDB log

  A shallow embedding of the chat core of the repository:
    - [src/index.js]: the authenticated server (JWT middleware [io.use], the
      ['chat message'] and ['delete message'] handlers, the recovery replay of
      [io.on('connection')]);
    - [src/server/index.js]: the stand-alone server without authentication;
    - [src/public/js/chat.js]: the form submit handler of the browser client.

  The MongoDB driver, Socket.IO and [jsonwebtoken] are libraries outside the
  repository.  They appear here through the operations the handlers call:
  a collection is the list of its documents in insertion order, an emit is
  an entry of the output trace, [jwt.verify] is a variable of the section
  that needs it.  Every [await]ed handler body is one step: a handler runs
  to completion before the next event is taken. *)

From Stdlib Require Import List String Ascii NArith Bool Arith Lia Sorted.
Import ListNotations.

Local Open Scope string_scope.
Local Open Scope list_scope.

(** ** JavaScript strings *)

Module Js.

(** Truthiness of a string: only the empty string is falsy. *)
Definition truthy (s : string) : bool :=
  match s with
  | EmptyString => false
  | String _ _ => true
  end.

(** [String.prototype.startsWith]. *)
Definition startsWith (s p : string) : bool := String.prefix p s.

(** White space removed by [String.prototype.trim] (the one-byte part). *)
Definition is_space (c : ascii) : bool :=
  let n := nat_of_ascii c in
  ((n =? 32) || (n =? 9) || (n =? 10) || (n =? 11) || (n =? 12) || (n =? 13))%nat.

Fixpoint trimStart (s : string) : string :=
  match s with
  | EmptyString => EmptyString
  | String c s' => if is_space c then trimStart s' else s
  end.

(** Removes trailing white space; the empty result stands for a string of
    white space only. *)
Fixpoint trimEnd (s : string) : string :=
  match s with
  | EmptyString => EmptyString
  | String c s' =>
      match trimEnd s' with
      | EmptyString => if is_space c then EmptyString else String c EmptyString
      | t => String c t
      end
  end.

Definition trim (s : string) : string := trimEnd (trimStart s).

(** [s.split(sep)] for a one-character separator: the pieces between the
    separators, always at least one piece. *)
Fixpoint split (sep : ascii) (s : string) : list string :=
  match s with
  | EmptyString => [EmptyString]
  | String c s' =>
      if Ascii.eqb c sep then EmptyString :: split sep s'
      else
        match split sep s' with
        | [] => [String c EmptyString]
        | piece :: pieces => String c piece :: pieces
        end
  end.

End Js.

(** ** BSON object ids *)

(** An [ObjectId] is a 12-byte value; the store compares ids as unsigned
  big-endian numbers, so an id is modelled by its numeric value. *)
Definition ObjectId := N.

(** What a handler can see thrown: the [ObjectId] constructor rejecting its
  argument, or the storage collaborator failing. *)
Inductive Error :=
| BSONError
| MongoError.

Inductive Result (A : Type) :=
| Ok (a : A)
| Throw (e : Error).
Arguments Ok {A} a.
Arguments Throw {A} e.

Module Bson.

Local Open Scope N_scope.

(** One hexadecimal digit, either case, as the driver's [/^[0-9a-fA-F]{24}$/]. *)
Definition hex_value (c : ascii) : option N :=
  let n := N_of_ascii c in
  if (48 <=? n) && (n <=? 57) then Some (n - 48)
  else if (97 <=? n) && (n <=? 102) then Some (n - 87)
  else if (65 <=? n) && (n <=? 70) then Some (n - 55)
  else None.

Fixpoint fromHex (s : string) (acc : N) : option N :=
  match s with
  | EmptyString => Some acc
  | String c s' =>
      match hex_value c with
      | Some d => fromHex s' (16 * acc + d)
      | None => None
      end
  end.

(** [new ObjectId(inputId)] on a string: 24 hexadecimal characters, or the
    constructor throws. *)
Definition new_ObjectId (inputId : string) : Result ObjectId :=
  if (String.length inputId =? 24)%nat then
    match fromHex inputId 0 with
    | Some n => Ok n
    | None => Throw BSONError
    end
  else Throw BSONError.

Definition hex_digit (d : N) : ascii :=
  if d <? 10 then ascii_of_N (48 + d) else ascii_of_N (87 + d).

Fixpoint toHex (width : nat) (n : N) (acc : string) : string :=
  match width with
  | O => acc
  | S w => toHex w (n / 16) (String (hex_digit (n mod 16)) acc)
  end.

(** [oid.toString()]: the 24 lower-case hexadecimal digits of the id. *)
Definition toString (oid : ObjectId) : string := toHex 24 oid EmptyString.

Fixpoint all_hex (s : string) : bool :=
  match s with
  | EmptyString => true
  | String c s' =>
      match hex_value c with
      | Some _ => all_hex s'
      | None => false
      end
  end.

(** [ObjectId.isValid] on a string: 24 hexadecimal characters. *)
Definition isValid (s : string) : bool :=
  (String.length s =? 24)%nat && all_hex s.

End Bson.

(** ** The message log *)

(** [new Date()]: milliseconds since the epoch. *)
Definition Date := N.

Module Message.

(** The object literal a handler builds and hands to [insertOne]:
    [{ content, user, timestamp }]; [src/server/index.js] leaves [timestamp]
    out. *)
Record t := { content : string; user : string; timestamp : option Date }.

End Message.

Module Row.

(** A stored document: the message with the [_id] the store gave it. *)
Record t := { _id : ObjectId; message : Message.t }.

Definition content (row : t) : string := Message.content (message row).
Definition user (row : t) : string := Message.user (message row).
Definition timestamp (row : t) : option Date := Message.timestamp (message row).

End Row.

Module Mongo.

(** The collection [messages]: its documents in insertion order and the next
    id the store hands out. *)
Record Collection := { docs : list Row.t; next_id : ObjectId }.

Definition empty : Collection := {| docs := []; next_id := 0%N |}.

(** The three filters the handlers build: [{}], [{ _id: { $gt: oid } }] and
    [{ _id: oid }]. *)
Inductive Query :=
| All
| IdGt (oid : ObjectId)
| IdEq (oid : ObjectId).

Definition matches (q : Query) (row : Row.t) : bool :=
  match q with
  | All => true
  | IdGt oid => (oid <? Row._id row)%N
  | IdEq oid => (Row._id row =? oid)%N
  end.

(** [collection.find(query).toArray()]: range lookup, in stored order. *)
Definition find (q : Query) (c : Collection) : list Row.t :=
  filter (matches q) (docs c).

(** [collection.findOne(query)]: point lookup, [None] for JavaScript's [null]. *)
Definition findOne (q : Query) (c : Collection) : option Row.t :=
  List.find (matches q) (docs c).

Fixpoint remove_first (q : Query) (rows : list Row.t) : list Row.t :=
  match rows with
  | [] => []
  | row :: rows' => if matches q row then rows' else row :: remove_first q rows'
  end.

(** [collection.deleteOne(query)]: removes the first match, if any. *)
Definition deleteOne (q : Query) (c : Collection) : Collection :=
  {| docs := remove_first q (docs c); next_id := next_id c |}.

(** Modelled from the spec: the id assignment of [collection.insertOne], which
    the MongoDB driver and server do outside the repository.  The spec's Log
    "assigns a new strictly-increasing id", by an "atomic-increment contract",
    "never client-supplied, never reused": the store keeps the next id, gives
    it to the inserted document and moves on.  The result is the driver's
    [insertedId]. *)
Definition insertOne (m : Message.t) (c : Collection) : ObjectId * Collection :=
  (next_id c,
   {| docs := docs c ++ [ {| Row._id := next_id c; Row.message := m |} ];
      next_id := N.succ (next_id c) |}).

End Mongo.

(** ** What the server sends and prints *)

(** The two events of the wire protocol, with their arguments. *)
Inductive Packet :=
| chat_message (content : string) (id : string) (user : string)
    (timestamp : option Date)
| message_deleted (messageId : string).

Inductive Level := log | warn | error.

(** [io.emit] reaches every connected socket, [socket.emit] the one socket;
    [console.*] stays on the server. *)
Inductive Output :=
| io_emit (p : Packet)
| socket_emit (sid : nat) (p : Packet)
| console (level : Level) (text : string) (e : option Error).

(** ** Handler bodies: state, output trace and exceptions *)

(** What a handler body works on: the collection, the outputs so far and, for
    each storage call still to come, whether the store is available for it
    (an empty list: always). *)
Record Env := {
  messagesCollection : Mongo.Collection;
  trace : list Output;
  availability : list bool
}.

(** A computation either returns or throws; what it did to the store and what
    it sent before throwing stays done, as in JavaScript. *)
Definition M (A : Type) : Type := Env -> Result A * Env.

Definition ret {A} (a : A) : M A := fun env => (Ok a, env).

Definition bind {A B} (m : M A) (k : A -> M B) : M B :=
  fun env =>
    match m env with
    | (Ok a, env') => k a env'
    | (Throw e, env') => (Throw e, env')
    end.

Notation "x <- m ;; k" := (bind m (fun x => k))
  (at level 61, m at next level, right associativity).
Notation "m ;; k" := (bind m (fun _ => k))
  (at level 61, right associativity).

(** [try { body } catch (e) { handler }]. *)
Definition try_catch {A} (body : M A) (handler : Error -> M A) : M A :=
  fun env =>
    match body env with
    | (Ok a, env') => (Ok a, env')
    | (Throw e, env') => handler e env'
    end.

Definition throw {A} (e : Error) : M A := fun env => (Throw e, env).

Definition lift {A} (r : Result A) : M A := fun env => (r, env).

Definition emit (o : Output) : M unit :=
  fun env =>
    (Ok tt,
     {| messagesCollection := messagesCollection env;
        trace := trace env ++ [o];
        availability := availability env |}).

(** An [await]ed call to the store: it consumes one availability flag and
    rejects with the store untouched when the flag is [false]. *)
Definition await {A} (op : Mongo.Collection -> A * Mongo.Collection) : M A :=
  fun env =>
    let run rest :=
      let (a, c) := op (messagesCollection env) in
      (Ok a,
       {| messagesCollection := c; trace := trace env; availability := rest |})
    in
    match availability env with
    | [] => run []
    | true :: rest => run rest
    | false :: rest =>
        (Throw MongoError,
         {| messagesCollection := messagesCollection env;
            trace := trace env;
            availability := rest |})
    end.

Definition insertOne (m : Message.t) : M ObjectId := await (Mongo.insertOne m).

Definition findOne (q : Mongo.Query) : M (option Row.t) :=
  await (fun c => (Mongo.findOne q c, c)).

Definition deleteOne (q : Mongo.Query) : M unit :=
  await (fun c => (tt, Mongo.deleteOne q c)).

Definition find (q : Mongo.Query) : M (list Row.t) :=
  await (fun c => (Mongo.find q c, c)).

Definition new_ObjectId (inputId : string) : M ObjectId :=
  lift (Bson.new_ObjectId inputId).

(** [array.forEach(f)]. *)
Fixpoint forEach {A} (l : list A) (f : A -> M unit) : M unit :=
  match l with
  | [] => ret tt
  | x :: l' => f x ;; forEach l' f
  end.

(** Runs one handler invocation on a collection. *)
Definition exec (h : M unit) (c : Mongo.Collection) (avail : list bool)
  : Result unit * Mongo.Collection * list Output :=
  let (r, env) :=
    h {| messagesCollection := c; trace := []; availability := avail |} in
  (r, messagesCollection env, trace env).

(** ** Connections *)

(** The payload of the signed token: [{ id, username }]. *)
Record User := { id : string; username : string }.

Module Offset.

(** [socket.handshake.auth.serverOffset]: left out, the number [0] the client
    starts with, or the id string of the last message the client has seen. *)
Inductive t :=
| absent
| zero
| last_seen (s : string).

End Offset.

Module Handshake.

(** What the client supplies when it connects: the [Cookie] header and the
    [auth] object. *)
Record t := {
  cookie : option string;
  auth_username : option string;
  serverOffset : Offset.t
}.

End Handshake.

Module Socket.

(** A connection of the authenticated server; [user] is what the middleware
    attached, [recovered] is Socket.IO's own session recovery flag. *)
Record t := {
  sid : nat;
  handshake : Handshake.t;
  user : User;
  recovered : bool
}.

End Socket.

(** ** [src/index.js]: the authenticated server *)

Module Server.

Inductive AuthError :=
| no_cookies
| no_token
| invalid_token.

Section Middleware.

(** [jwt.verify(token, SECRET_JWT_KEY)]: the payload, or [None] when it
    throws. *)
Variable jwt_verify : string -> option User.

(** [io.use((socket, next) => ...)]: the identity to attach to the socket, or
    the error that rejects the connection. *)
Definition io_use (handshake : Handshake.t) : AuthError + User :=
  match Handshake.cookie handshake with
  | None => inl no_cookies
  | Some cookies =>
      if negb (Js.truthy cookies) then inl no_cookies
      else
        match
          List.find (fun c => Js.startsWith (Js.trim c) "access_token=")
            (Js.split ";" cookies)
        with
        | None => inl no_token
        | Some tokenCookie =>
            match nth_error (Js.split "=" tokenCookie) 1 with
            | Some token =>
                match jwt_verify token with
                | Some user => inr user
                | None => inl invalid_token
                end
            | None => inl invalid_token
            end
        end
  end.

End Middleware.

(** [socket.on('chat message', async (msg) => ...)]. *)
Definition on_chat_message (socket : Socket.t) (msg : string) (now : Date)
  : M unit :=
  let message :=
    {| Message.content := msg;
       Message.user := username (Socket.user socket);
       Message.timestamp := Some now |} in
  try_catch
    (insertedId <- insertOne message ;;
     emit (io_emit (chat_message (Message.content message)
                      (Bson.toString insertedId)
                      (Message.user message)
                      (Message.timestamp message))))
    (fun e => emit (console error "Error al guardar o emitir el mensaje:" (Some e))).

(** [socket.on('delete message', async (messageId) => ...)]. *)
Definition on_delete_message (socket : Socket.t) (messageId : string) : M unit :=
  try_catch
    (objectId <- new_ObjectId messageId ;;
     message <- findOne (Mongo.IdEq objectId) ;;
     let authorised :=
       match message with
       | Some row => String.eqb (Row.user row) (username (Socket.user socket))
       | None => false
       end in
     if authorised then
       deleteOne (Mongo.IdEq objectId) ;;
       emit (io_emit (message_deleted messageId))
     else
       emit (console warn
               ("Intento de borrado no autorizado por "
                ++ username (Socket.user socket)
                ++ " para el mensaje " ++ messageId) None))
    (fun e => emit (console error "Error al borrar el mensaje:" (Some e))).

(** The recovery replay at the end of [io.on('connection', ...)]. *)
Definition replay (socket : Socket.t) : M unit :=
  if negb (Socket.recovered socket) then
    try_catch
      (let serverOffset := Handshake.serverOffset (Socket.handshake socket) in
       query <-
         match serverOffset with
         | Offset.absent | Offset.zero => ret Mongo.All
         | Offset.last_seen s =>
             if Js.truthy s then
               oid <- new_ObjectId s ;; ret (Mongo.IdGt oid)
             else ret Mongo.All
         end ;;
       results <- find query ;;
       forEach results (fun row =>
         emit (socket_emit (Socket.sid socket)
                 (chat_message (Row.content row) (Bson.toString (Row._id row))
                    (Row.user row) (Row.timestamp row)))))
      (fun e => emit (console error "Error al recuperar mensajes:" (Some e)))
  else ret tt.

(** [io.on('connection', async (socket) => ...)]: the greeting, the handler
    registrations (which are the functions above) and the replay. *)
Definition on_connection (socket : Socket.t) : M unit :=
  emit (console log
          ("✅ Usuario conectado al chat: " ++ username (Socket.user socket))
          None) ;;
  replay socket.

(** [socket.on('disconnect', ...)]. *)
Definition on_disconnect (socket : Socket.t) : M unit :=
  emit (console log
          ("❌ Usuario desconectado: " ++ username (Socket.user socket)) None).

End Server.

(** ** [src/server/index.js]: the server without authentication *)

Module Standalone.

(** A connection of this server: nothing is attached to it; the handlers read
    the handshake the client sent. *)
Record Socket := {
  sid : nat;
  handshake : Handshake.t;
  recovered : bool
}.

(** [socket.on('chat message', async (msg) => ...)]; the [return] in the
    [catch] leaves before the emit. *)
Definition on_chat_message (socket : Socket) (msg : string) : M unit :=
  let username :=
    match Handshake.auth_username (handshake socket) with
    | Some name => name
    | None => "anonymous"
    end in
  result <-
    try_catch
      (insertedId <-
         insertOne {| Message.content := msg;
                      Message.user := username;
                      Message.timestamp := None |} ;;
       ret (Some insertedId))
      (fun e => emit (console error "" (Some e)) ;; ret None) ;;
  match result with
  | None => ret tt
  | Some insertedId =>
      emit (io_emit (chat_message msg (Bson.toString insertedId) username None))
  end.

(** The replay of [io.on('connection', ...)]. *)
Definition on_connection (socket : Socket) : M unit :=
  emit (console log "a user has connected!" None) ;;
  if negb (recovered socket) then
    try_catch
      (let serverOffset := Handshake.serverOffset (handshake socket) in
       query <-
         match serverOffset with
         | Offset.absent | Offset.zero => ret Mongo.All
         | Offset.last_seen s =>
             if Js.truthy s then
               oid <- new_ObjectId s ;; ret (Mongo.IdGt oid)
             else ret Mongo.All
         end ;;
       results <- find query ;;
       forEach results (fun row =>
         emit (socket_emit (sid socket)
                 (chat_message (Row.content row) (Bson.toString (Row._id row))
                    (Row.user row) None))))
      (fun e => emit (console error "" (Some e)))
  else ret tt.

End Standalone.

(** ** [src/public/js/chat.js]: the client's form *)

Module Client.

(** The submit handler of the form: what it sends to the server and what it
    leaves in the input field. *)
Definition submit (input_value : string) : list (string * string) * string :=
  if Js.truthy input_value then
    ([("chat message", input_value)], "")
  else ([], input_value).

End Client.

(** ** The running server: registry, events and steps *)

Module System.

(** The collection and the sockets Socket.IO holds connected; [io.emit] goes
    to all of [sockets]. *)
Record World := {
  store : Mongo.Collection;
  sockets : list Socket.t;
  next_sid : nat
}.

Definition init : World :=
  {| store := Mongo.empty; sockets := []; next_sid := 0 |}.

(** What reaches the server: a connection attempt, or an event of the
    connection [sid]; [avail] tells for each storage call of the handler
    whether the store answers, [now] is the clock read by [new Date()]. *)
Inductive Event :=
| connect (handshake : Handshake.t) (recovered : bool) (avail : list bool)
| chat (sid : nat) (msg : string) (now : Date) (avail : list bool)
| delete (sid : nat) (messageId : string) (avail : list bool)
| disconnect (sid : nat).

Definition lookup (sid : nat) (w : World) : option Socket.t :=
  List.find (fun s => Nat.eqb (Socket.sid s) sid) (sockets w).

(** The packets of a trace that arrive at connection [sid], given the sockets
    connected when they were sent. *)
Definition delivered (connected : list Socket.t) (outs : list Output)
  (sid : nat) : list Packet :=
  flat_map
    (fun o =>
       match o with
       | io_emit p =>
           if existsb (fun s => Nat.eqb (Socket.sid s) sid) connected
           then [p] else []
       | socket_emit sid' p => if Nat.eqb sid' sid then [p] else []
       | console _ _ _ => []
       end)
    outs.

(** Runs a handler of a connected socket on the world. *)
Definition handle (h : M unit) (w : World) (avail : list bool)
  : Result unit * World * list Output :=
  let '(r, c, outs) := exec h (store w) avail in
  (r, {| store := c; sockets := sockets w; next_sid := next_sid w |}, outs).

Section Steps.

Variable jwt_verify : string -> option User.

(** One event.  A handshake the middleware rejects connects nothing; events
    of a connection that is not there are not delivered to any handler. *)
Definition step (w : World) (ev : Event) : Result unit * World * list Output :=
  match ev with
  | connect handshake recovered avail =>
      match Server.io_use jwt_verify handshake with
      | inl _ => (Ok tt, w, [])
      | inr user =>
          let socket :=
            {| Socket.sid := next_sid w;
               Socket.handshake := handshake;
               Socket.user := user;
               Socket.recovered := recovered |} in
          handle (Server.on_connection socket)
            {| store := store w;
               sockets := sockets w ++ [socket];
               next_sid := S (next_sid w) |}
            avail
      end
  | chat sid msg now avail =>
      match lookup sid w with
      | Some socket => handle (Server.on_chat_message socket msg now) w avail
      | None => (Ok tt, w, [])
      end
  | delete sid messageId avail =>
      match lookup sid w with
      | Some socket => handle (Server.on_delete_message socket messageId) w avail
      | None => (Ok tt, w, [])
      end
  | disconnect sid =>
      match lookup sid w with
      | Some socket =>
          handle (Server.on_disconnect socket)
            {| store := store w;
               sockets :=
                 filter (fun s => negb (Nat.eqb (Socket.sid s) sid)) (sockets w);
               next_sid := next_sid w |}
            []
      | None => (Ok tt, w, [])
      end
  end.

(** A sequence of events; an exception that escapes a handler stops the
    server. *)
Fixpoint run (w : World) (evs : list Event) : Result unit * World * list Output :=
  match evs with
  | [] => (Ok tt, w, [])
  | ev :: evs' =>
      match step w ev with
      | (Ok _, w1, outs1) =>
          let '(r, w2, outs2) := run w1 evs' in
          (r, w2, outs1 ++ outs2)
      | (Throw e, w1, outs1) => (Throw e, w1, outs1)
      end
  end.

End Steps.

End System.

(** ** Invariants and observations *)

(** The ids of a collection, in stored order. *)
Definition ids (c : Mongo.Collection) : list ObjectId :=
  map Row._id (Mongo.docs c).

(** The log is ordered by id, and every id in it has been handed out. *)
Definition wf (c : Mongo.Collection) : Prop :=
  StronglySorted N.lt (ids c)
  /\ Forall (fun i => (i < Mongo.next_id c)%N) (ids c).

(** Whether the store answers the next storage call. *)
Definition available (avail : list bool) : bool :=
  match avail with
  | false :: _ => false
  | _ => true
  end.

(** What leaves the server towards clients: the trace without the console. *)
Definition wire (outs : list Output) : list Output :=
  filter (fun o => match o with console _ _ _ => false | _ => true end) outs.

(** The packet in which the replay sends a stored row to the socket. *)
Definition replayed (socket : Socket.t) (row : Row.t) : Output :=
  socket_emit (Socket.sid socket)
    (chat_message (Row.content row) (Bson.toString (Row._id row))
       (Row.user row) (Row.timestamp row)).

(** The message a ['chat message'] event of the authenticated server stores. *)
Definition stored (socket : Socket.t) (msg : string) (now : Date) : Message.t :=
  {| Message.content := msg;
     Message.user := username (Socket.user socket);
     Message.timestamp := Some now |}.

(** Whether the delete handler's guard [message && message.user === ...]
    holds for the id [oid]. *)
Definition authorised (socket : Socket.t) (oid : ObjectId) (c : Mongo.Collection)
  : bool :=
  match Mongo.findOne (Mongo.IdEq oid) c with
  | Some row => String.eqb (Row.user row) (username (Socket.user socket))
  | None => false
  end.

Definition unauthorised_warning (socket : Socket.t) (messageId : string) : Output :=
  console warn
    ("Intento de borrado no autorizado por " ++ username (Socket.user socket)
     ++ " para el mensaje " ++ messageId) None.

Definition delete_error (e : Error) : Output :=
  console error "Error al borrar el mensaje:" (Some e).

(** What a delete request does to the collection and what it sends or
    prints. *)
Definition delete_result (socket : Socket.t) (messageId : string)
  (c : Mongo.Collection) (avail : list bool) : Mongo.Collection * list Output :=
  match Bson.new_ObjectId messageId with
  | Throw e => (c, [delete_error e])
  | Ok oid =>
      if available avail then
        if authorised socket oid c then
          if available (tl avail) then
            (Mongo.deleteOne (Mongo.IdEq oid) c,
             [io_emit (message_deleted messageId)])
          else (c, [delete_error MongoError])
        else (c, [unauthorised_warning socket messageId])
      else (c, [delete_error MongoError])
  end.

(** The filter the replay builds from the declared offset, or the error of
    the [ObjectId] constructor. *)
Definition replay_query (serverOffset : Offset.t) : Result Mongo.Query :=
  match serverOffset with
  | Offset.absent | Offset.zero => Ok Mongo.All
  | Offset.last_seen s =>
      if Js.truthy s then
        match Bson.new_ObjectId s with
        | Ok oid => Ok (Mongo.IdGt oid)
        | Throw e => Throw e
        end
      else Ok Mongo.All
  end.

Definition recovery_error (e : Error) : Output :=
  console error "Error al recuperar mensajes:" (Some e).

Definition greeting (socket : Socket.t) : Output :=
  console log ("✅ Usuario conectado al chat: " ++ username (Socket.user socket))
    None.

(** What the replay sends or prints for a socket, a collection and the
    availability of the store. *)
Definition replay_outputs (socket : Socket.t) (c : Mongo.Collection)
  (avail : list bool) : list Output :=
  if Socket.recovered socket then []
  else
    match replay_query (Handshake.serverOffset (Socket.handshake socket)) with
    | Throw e => [recovery_error e]
    | Ok q =>
        if available avail then map (replayed socket) (Mongo.find q c)
        else [recovery_error MongoError]
    end.

(** The ids present after a step that were not there before it. *)
Definition fresh_ids (before after : Mongo.Collection) : list ObjectId :=
  filter (fun i => negb (existsb (N.eqb i) (ids before))) (ids after).

(** The ids the store assigns along a run, in the order of assignment. *)
Fixpoint assigned (jwt_verify : string -> option User) (w : System.World)
  (evs : list System.Event) : list ObjectId :=
  match evs with
  | [] => []
  | ev :: evs' =>
      match System.step jwt_verify w ev with
      | (Ok _, w1, _) =>
          fresh_ids (System.store w) (System.store w1)
          ++ assigned jwt_verify w1 evs'
      | (Throw _, w1, _) => fresh_ids (System.store w) (System.store w1)
      end
  end.

(** What one step can do to the collection. *)
Inductive store_step (c : Mongo.Collection) : Mongo.Collection -> Prop :=
| store_same : store_step c c
| store_insert m : store_step c (snd (Mongo.insertOne m c))
| store_delete q : store_step c (Mongo.deleteOne q c).

(** Socket ids are handed out in order, and every connected socket carries
    the identity the middleware verified from its own handshake. *)
Definition registry_ok (jwt_verify : string -> option User) (w : System.World)
  : Prop :=
  Forall
    (fun s =>
       (Socket.sid s < System.next_sid w)%nat
       /\ Server.io_use jwt_verify (Socket.handshake s) = inr (Socket.user s))
    (System.sockets w).

(** The authors of the documents a handler run leaves in the collection. *)
Definition authors (r : Result unit * Mongo.Collection * list Output)
  : list string :=
  map Row.user (Mongo.docs (snd (fst r))).

(** ** Sample connections *)

Module Sample.

Definition alice : User := {| id := "u-1"; username := "alice" |}.
Definition bob : User := {| id := "u-2"; username := "bob" |}.

(** A verifier that knows two tokens. *)
Definition jwt_verify (token : string) : option User :=
  if String.eqb token "alice.jwt" then Some alice
  else if String.eqb token "bob.jwt" then Some bob
  else None.

(** Alice's browser: her cookie carries her token, and the [auth] object
    claims another name. *)
Definition alice_handshake : Handshake.t :=
  {| Handshake.cookie := Some "theme=dark; access_token=alice.jwt";
     Handshake.auth_username := Some "mallory";
     Handshake.serverOffset := Offset.zero |}.

Definition bob_handshake (serverOffset : Offset.t) : Handshake.t :=
  {| Handshake.cookie := Some "access_token=bob.jwt";
     Handshake.auth_username := Some "bob";
     Handshake.serverOffset := serverOffset |}.

Definition alice_socket : Socket.t :=
  {| Socket.sid := 0;
     Socket.handshake := alice_handshake;
     Socket.user := alice;
     Socket.recovered := false |}.

Definition bob_socket (serverOffset : Offset.t) (recovered : bool) : Socket.t :=
  {| Socket.sid := 1;
     Socket.handshake := bob_handshake serverOffset;
     Socket.user := bob;
     Socket.recovered := recovered |}.

(** A connection of the server without authentication. *)
Definition guest (name : option string) : Standalone.Socket :=
  {| Standalone.sid := 0;
     Standalone.handshake :=
       {| Handshake.cookie := None;
          Handshake.auth_username := name;
          Handshake.serverOffset := Offset.zero |};
     Standalone.recovered := false |}.

Definition hi : Row.t :=
  {| Row._id := 0%N;
     Row.message :=
       {| Message.content := "hi";
          Message.user := "alice";
          Message.timestamp := Some 1000%N |} |}.

(** The log after Alice said "hi". *)
Definition one_message : Mongo.Collection :=
  {| Mongo.docs := [hi]; Mongo.next_id := 1%N |}.

(** Alice connects and says "hi". *)
Definition history : list System.Event :=
  [System.connect alice_handshake false [];
   System.chat 0 "hi" 1000%N []].

(** The world after [history]. *)
Definition chatting : System.World :=
  {| System.store := one_message;
     System.sockets := [alice_socket];
     System.next_sid := 1 |}.

(** The world after Alice took her "hi" back: the id 0 is used up. *)
Definition emptied : System.World :=
  {| System.store := {| Mongo.docs := []; Mongo.next_id := 1%N |};
     System.sockets := [alice_socket];
     System.next_sid := 1 |}.

(** Alice alone in the chat, nothing said yet. *)
Definition lobby : System.World :=
  {| System.store := Mongo.empty;
     System.sockets := [alice_socket];
     System.next_sid := 1 |}.

End Sample.

(** ** [src/user-repository.js]: accounts *)

Module Account.

(** A document of the [User] schema: [{ _id, username, password }]. *)
Record t := { _id : string; username : string; password : string }.

End Account.

Module Public.

(** [publicUser]: the document without its [password]. *)
Record t := { _id : string; username : string }.

End Public.

(** A field of a request body: a string, or anything else ([undefined], a
    number, an object), which is all [typeof x !== 'string'] tells apart.
    A string is read as the sequence of its code units, which is what
    [.length] counts. *)
Inductive Input :=
| text (s : string)
| not_text.

Module Validation.

(** [Validation.password]: the error it throws, or the string it let pass. *)
Definition password (password : Input) : string + string :=
  match password with
  | not_text => inl "La contraseña debe ser un texto."
  | text s =>
      if (String.length s <? 6)%nat
      then inl "La contraseña debe tener al menos 6 caracteres."
      else inr s
  end.

(** [Validation.username]. *)
Definition username (username : Input) : string + string :=
  match username with
  | not_text => inl "El nombre de usuario debe ser un texto."
  | text s =>
      if (String.length s <? 3)%nat
      then inl "El nombre de usuario debe tener al menos 3 caracteres."
      else inr s
  end.

End Validation.

Module UserRepository.

(** [User.findOne({ username })]: the first document with that name. *)
Definition findOne (username : string) (db : list Account.t) : option Account.t :=
  List.find (fun user => String.eqb (Account.username user) username) db.

Section Bcrypt.

(** [bcrypt.hash(password, SALT_ROUND)], given the salt it draws, and
    [bcrypt.compare(password, hash)]. *)
Variable bcrypt_hash : string -> N -> string.
Variable bcrypt_compare : string -> string -> bool.

(** [UserRepository.create]: the error it throws, or the new id and the
    database with the saved document; [uuid] is what [crypto.randomUUID()]
    returns. *)
Definition create (db : list Account.t) (username password : Input)
  (uuid : string) (salt : N) : string + (string * list Account.t) :=
  match Validation.username username with
  | inl e => inl e
  | inr username =>
      match Validation.password password with
      | inl e => inl e
      | inr password =>
          match findOne username db with
          | Some _ => inl ("El usuario '" ++ username ++ "' ya está registrado.")%string
          | None =>
              let id := uuid in
              let hashedPassword := bcrypt_hash password salt in
              inr (id,
                   db ++ [ {| Account._id := id;
                              Account.username := username;
                              Account.password := hashedPassword |} ])
          end
      end
  end.

(** [UserRepository.login]: the error it throws, or the public user. *)
Definition login (db : list Account.t) (username password : Input)
  : string + Public.t :=
  match Validation.username username with
  | inl e => inl e
  | inr username =>
      match Validation.password password with
      | inl e => inl e
      | inr password =>
          match findOne username db with
          | None => inl "El usuario no existe en nuestra base de datos."
          | Some user =>
              let isValid := bcrypt_compare password (Account.password user) in
              if negb isValid then inl "La contraseña es incorrecta."
              else
                inr {| Public._id := Account._id user;
                       Public.username := Account.username user |}
          end
      end
  end.


End Bcrypt.

End UserRepository.

(** ** [src/index.js]: the HTTP routes *)

Module Http.

(** What a route reads of a request: the [access_token] cookie as
    [cookie-parser] found it, and the two fields of the JSON body. *)
Record Request := {
  cookie_access_token : option string;
  body_username : Input;
  body_password : Input
}.

(** The [access_token] cookie a route sets, with its options. *)
Record Cookie := {
  value : string;
  httpOnly : bool;
  secure : bool;
  sameSite : string;
  maxAge : N
}.

Inductive Body :=
| render (view : string) (user : option User)
| redirect (path : string)
| send (text : string)
| json_error (error : string)
| json_login (message : string) (user : Public.t)
| json_registered (id : string) (username : string)
| json_message (message : string).

Record Response := {
  status : nat;
  cookie : option Cookie;
  clearCookie : option string;
  body : Body
}.

Definition plain (status : nat) (body : Body) : Response :=
  {| status := status; cookie := None; clearCookie := None; body := body |}.

Section Routes.

Variable jwt_verify : string -> option User.

(** [jwt.sign(payload, SECRET_JWT_KEY, { expiresIn: '1h' })] at a given
    time. *)
Variable jwt_sign : User -> Date -> string.
Variable bcrypt_hash : string -> N -> string.
Variable bcrypt_compare : string -> string -> bool.

(** [process.env.NODE_ENV === 'production']. *)
Variable production : bool.

(** The authentication middleware of the HTTP routes: [req.session.user]
    and what it prints. *)
Definition session (req : Request) : option User * list Output :=
  match cookie_access_token req with
  | None => (None, [])
  | Some token =>
      if negb (Js.truthy token) then (None, [])
      else
        match jwt_verify token with
        | Some data => (Some data, [])
        | None => (None, [console error "Error al verificar el token:" None])
        end
  end.

Definition access_cookie (token : string) : Cookie :=
  {| value := token;
     httpOnly := true;
     secure := production;
     sameSite := "strict";
     maxAge := (1000 * 60 * 60)%N |}.

(** [app.get('/')]. *)
Definition get_root (req : Request) : Response :=
  plain 200 (render "index" (fst (session req))).

(** [app.post('/login')]. *)
Definition post_login (db : list Account.t) (req : Request) (now : Date)
  : Response :=
  match UserRepository.login bcrypt_compare db (body_username req)
          (body_password req) with
  | inr user =>
      let token :=
        jwt_sign {| id := Public._id user; username := Public.username user |}
          now in
      {| status := 200;
         cookie := Some (access_cookie token);
         clearCookie := None;
         body := json_login "Login exitoso" user |}
  | inl message => plain 401 (json_error message)
  end.

(** [app.post('/register')]: the response and the database afterwards. *)
Definition post_register (db : list Account.t) (req : Request)
  (uuid : string) (salt : N) (now : Date) : Response * list Account.t :=
  match UserRepository.create bcrypt_hash db (body_username req)
          (body_password req) uuid salt with
  | inr (id, db') =>
      match body_username req with
      | text username =>
          let token := jwt_sign {| id := id; username := username |} now in
          ({| status := 201;
              cookie := Some (access_cookie token);
              clearCookie := None;
              body := json_registered id username |}, db')
      | not_text =>
          (* [create] has let the name pass, so it is a string *)
          (plain 400 (json_error ""), db)
      end
  | inl message => (plain 400 (json_error message), db)
  end.

(** [app.post('/logout')]. *)
Definition post_logout (req : Request) : Response :=
  {| status := 200;
     cookie := None;
     clearCookie := Some "access_token";
     body := json_message "Logout exitoso" |}.

(** [app.get('/protected')]. *)
Definition get_protected (req : Request) : Response :=
  match fst (session req) with
  | None => plain 403 (send "Acceso no autorizado. Debes iniciar sesión.")
  | Some user => plain 200 (render "protected" (Some user))
  end.

(** [app.get('/chat')]. *)
Definition get_chat (req : Request) : Response :=
  match fst (session req) with
  | None => plain 302 (redirect "/")
  | Some user => plain 200 (render "chat" (Some user))
  end.

End Routes.

End Http.

(** ** [src/public/js/theme-switcher.js]: the theme of the page *)

Module Theme.

(** The page as the script sees it: whether [body] has the class
    [dark-mode], the text of the toggle button if the page has one, and the
    entry [themePreference] of [localStorage]. *)
Record Page := {
  dark_mode : bool;
  themeToggleButton : option string;
  themePreference : option string
}.

(** [applyTheme(theme)]. *)
Definition applyTheme (theme : string) (page : Page) : Page :=
  if String.eqb theme "dark" then
    {| dark_mode := true;
       themeToggleButton := option_map (fun _ => "☀️") (themeToggleButton page);
       themePreference := themePreference page |}
  else
    {| dark_mode := false;
       themeToggleButton := option_map (fun _ => "🌙") (themeToggleButton page);
       themePreference := themePreference page |}.

(** A click on the toggle button; a page without the button has no
    listener. *)
Definition click (page : Page) : Page :=
  match themeToggleButton page with
  | None => page
  | Some _ =>
      let isDarkMode := dark_mode page in
      let newTheme := if isDarkMode then "light" else "dark" in
      applyTheme newTheme
        {| dark_mode := dark_mode page;
           themeToggleButton := themeToggleButton page;
           themePreference := Some newTheme |}
  end.

(** The initial theme at [DOMContentLoaded]; [os_dark] is what
    [matchMedia('(prefers-color-scheme: dark)')] says. *)
Definition load (os_dark : bool) (page : Page) : Page :=
  let savedTheme := themePreference page in
  let osPreference := if os_dark then "dark" else "light" in
  let initialTheme :=
    match savedTheme with
    | Some saved => if Js.truthy saved then saved else osPreference
    | None => osPreference
    end in
  applyTheme initialTheme page.

(** The page a reload starts from: the markup again, the storage kept. *)
Definition reload (markup page : Page) : Page :=
  {| dark_mode := dark_mode markup;
     themeToggleButton := themeToggleButton markup;
     themePreference := themePreference page |}.

End Theme.

(** ** The chat client's offset *)

Module Browser.

(** What the client's ['chat message'] handler does to
    [socket.auth.serverOffset]: it becomes the id of the message; a
    ['message deleted'] event leaves it alone. *)
Definition on_packet (serverOffset : Offset.t) (p : Packet) : Offset.t :=
  match p with
  | chat_message _ id _ _ => Offset.last_seen id
  | message_deleted _ => serverOffset
  end.

Definition receive (serverOffset : Offset.t) (packets : list Packet) : Offset.t :=
  fold_left on_packet packets serverOffset.

(** The handshake of a reconnection: the same cookie, the [auth] object
    with the offset the client has reached. *)
Definition reconnect (handshake : Handshake.t) (serverOffset : Offset.t)
  : Handshake.t :=
  {| Handshake.cookie := Handshake.cookie handshake;
     Handshake.auth_username := Handshake.auth_username handshake;
     Handshake.serverOffset := serverOffset |}.

End Browser.

(** ** Further observations *)

(** The packets a trace broadcasts with [io.emit]. *)
Definition broadcasts (outs : list Output) : list Packet :=
  flat_map (fun o => match o with io_emit p => [p] | _ => [] end) outs.

(** A string without the character [c]. *)
Fixpoint lacks (c : ascii) (s : string) : bool :=
  match s with
  | EmptyString => true
  | String c' s' => negb (Ascii.eqb c' c) && lacks c s'
  end.

(** The author of a row is the name in some token the verifier accepts. *)
Definition verified_author (jwt_verify : string -> option User) (row : Row.t)
  : Prop :=
  exists token user,
    jwt_verify token = Some user /\ Row.user row = username user.

(** A socket with another handshake. *)
Definition with_handshake (socket : Socket.t) (handshake : Handshake.t)
  : Socket.t :=
  {| Socket.sid := Socket.sid socket;
     Socket.handshake := handshake;
     Socket.user := Socket.user socket;
     Socket.recovered := Socket.recovered socket |}.

(** The chat packet in which the replay sends a row. *)
Definition packet_of (row : Row.t) : Packet :=
  chat_message (Row.content row) (Bson.toString (Row._id row)) (Row.user row)
    (Row.timestamp row).

(** An output as the server without authentication sends it: a chat packet
    goes without its fourth argument. *)
Definition without_timestamp (o : Output) : Output :=
  match o with
  | socket_emit sid (chat_message content id user _) =>
      socket_emit sid (chat_message content id user None)
  | io_emit (chat_message content id user _) =>
      io_emit (chat_message content id user None)
  | _ => o
  end.

(** What the connection handler of the server without authentication
    prints and sends. *)
Definition standalone_outputs (guest : Standalone.Socket) (c : Mongo.Collection)
  (avail : list bool) : list Output :=
  console log "a user has connected!" None
  :: (if Standalone.recovered guest then []
      else
        match replay_query (Handshake.serverOffset (Standalone.handshake guest)) with
        | Throw e => [console error "" (Some e)]
        | Ok q =>
            if available avail then
              map (fun row =>
                     socket_emit (Standalone.sid guest)
                       (chat_message (Row.content row)
                          (Bson.toString (Row._id row)) (Row.user row) None))
                (Mongo.find q c)
            else [console error "" (Some MongoError)]
        end).

Module Fixture.

(** A stand-in for bcrypt: the hash shows the salt and the password. *)
Definition bcrypt_hash (password : string) (salt : N) : string :=
  "$2b$" ++ Bson.toString salt ++ "$" ++ password.

Definition bcrypt_compare (password hash : string) : bool :=
  String.eqb (String.substring 29 (String.length hash - 29) hash) password.

(** A signer for the two tokens [Sample.jwt_verify] knows. *)
Definition jwt_sign (user : User) (now : Date) : string :=
  username user ++ ".jwt".

(** The connection of [Sample.bob_socket] on the server without
    authentication. *)
Definition bob_guest (serverOffset : Offset.t) : Standalone.Socket :=
  {| Standalone.sid := 1;
     Standalone.handshake := Sample.bob_handshake serverOffset;
     Standalone.recovered := false |}.

Definition carol : Account.t :=
  {| Account._id := "u-3";
     Account.username := "carol";
     Account.password := bcrypt_hash "secret-3" 7%N |}.

Definition dark_page : Theme.Page :=
  {| Theme.dark_mode := true;
     Theme.themeToggleButton := Some "☀️";
     Theme.themePreference := Some "dark" |}.

Definition markup : Theme.Page :=
  {| Theme.dark_mode := false;
     Theme.themeToggleButton := Some "";
     Theme.themePreference := None |}.

End Fixture.

(** * Properties *)

(** ** The handlers, step by step *)

Ltac by_availability avail :=
  destruct avail as [ | [ | ] ? ]; simpl in *; try discriminate; try reflexivity.

Ltac run_handler :=
  unfold exec, Server.on_delete_message, Server.on_connection, Server.replay,
    try_catch, bind, ret, new_ObjectId, lift, findOne, deleteOne, find, await,
    emit; simpl.

Lemma exec_chat_available socket msg now c avail :
  available avail = true ->
  exec (Server.on_chat_message socket msg now) c avail =
    (Ok tt,
     snd (Mongo.insertOne (stored socket msg now) c),
     [io_emit (chat_message msg (Bson.toString (Mongo.next_id c))
                 (username (Socket.user socket)) (Some now))]).
Proof. intros H. by_availability avail. Qed.

Lemma exec_chat_unavailable socket msg now c avail :
  available avail = false ->
  exec (Server.on_chat_message socket msg now) c avail =
    (Ok tt, c,
     [console error "Error al guardar o emitir el mensaje:" (Some MongoError)]).
Proof. intros H. by_availability avail. Qed.

Lemma exec_standalone_chat_available socket msg c avail :
  available avail = true ->
  let author :=
    match Handshake.auth_username (Standalone.handshake socket) with
    | Some name => name
    | None => "anonymous"
    end in
  exec (Standalone.on_chat_message socket msg) c avail =
    (Ok tt,
     snd (Mongo.insertOne
            {| Message.content := msg; Message.user := author;
               Message.timestamp := None |} c),
     [io_emit (chat_message msg (Bson.toString (Mongo.next_id c)) author None)]).
Proof. intros H. by_availability avail. Qed.

Lemma exec_standalone_chat_unavailable socket msg c avail :
  available avail = false ->
  exec (Standalone.on_chat_message socket msg) c avail =
    (Ok tt, c, [console error "" (Some MongoError)]).
Proof. intros H. by_availability avail. Qed.

Lemma exec_on_delete socket messageId c avail :
  exec (Server.on_delete_message socket messageId) c avail =
    (Ok tt,
     fst (delete_result socket messageId c avail),
     snd (delete_result socket messageId c avail)).
Proof.
  unfold delete_result, authorised. run_handler.
  destruct (Bson.new_ObjectId messageId) as [ oid | e ]; [ | reflexivity ].
  destruct avail as [ | [ | ] [ | [ | ] rest ] ]; simpl;
    try reflexivity;
    destruct (Mongo.findOne (Mongo.IdEq oid) c) as [ row | ]; simpl;
    try reflexivity;
    destruct (String.eqb (Row.user row) (username (Socket.user socket)));
    reflexivity.
Qed.

Lemma forEach_emit {A} (f : A -> Output) (l : list A) env :
  forEach l (fun x => emit (f x)) env =
    (Ok tt,
     {| messagesCollection := messagesCollection env;
        trace := trace env ++ map f l;
        availability := availability env |}).
Proof.
  revert env. induction l as [ | x l IH ]; intros env; simpl.
  - rewrite app_nil_r. destruct env; reflexivity.
  - unfold bind, emit at 1. rewrite IH. simpl.
    rewrite <- app_assoc. reflexivity.
Qed.

Lemma replay_env socket env :
  exists rest,
    Server.replay socket env =
      (Ok tt,
       {| messagesCollection := messagesCollection env;
          trace :=
            trace env
            ++ replay_outputs socket (messagesCollection env) (availability env);
          availability := rest |}).
Proof.
  unfold Server.replay, replay_outputs, replay_query.
  destruct (Socket.recovered socket); simpl.
  { exists (availability env). unfold ret. rewrite app_nil_r.
    destruct env; reflexivity. }
  unfold try_catch, bind at 1.
  destruct env as [c tr avail]; simpl.
  destruct (Handshake.serverOffset (Socket.handshake socket)) as [ | | s ].
  1, 2: unfold ret, bind, find, await; simpl;
        destruct avail as [ | [ | ] rest ]; simpl;
        try rewrite forEach_emit; eexists; reflexivity.
  destruct (Js.truthy s).
  - unfold bind, new_ObjectId, lift, ret.
    destruct (Bson.new_ObjectId s) as [ oid | e ]; simpl.
    + unfold find, await; simpl.
      destruct avail as [ | [ | ] rest ]; simpl;
        try rewrite forEach_emit; eexists; reflexivity.
    + eexists; reflexivity.
  - unfold ret, bind, find, await; simpl.
    destruct avail as [ | [ | ] rest ]; simpl;
      try rewrite forEach_emit; eexists; reflexivity.
Qed.

Lemma exec_replay socket c avail :
  exec (Server.replay socket) c avail = (Ok tt, c, replay_outputs socket c avail).
Proof.
  unfold exec.
  destruct (replay_env socket
              {| messagesCollection := c; trace := []; availability := avail |})
    as [rest H].
  rewrite H. reflexivity.
Qed.

Lemma exec_on_connection socket c avail :
  exec (Server.on_connection socket) c avail =
    (Ok tt, c, greeting socket :: replay_outputs socket c avail).
Proof.
  unfold exec, Server.on_connection, bind, emit at 1. simpl.
  match goal with
  | |- context [ Server.replay socket ?env ] =>
      destruct (replay_env socket env) as [rest H]; rewrite H
  end.
  reflexivity.
Qed.

(** ** The log stays ordered *)

Section Ordered.

Local Open Scope N_scope.

Lemma sorted_snoc (l : list N) (x : N) :
  StronglySorted N.lt l -> Forall (fun i => i < x) l ->
  StronglySorted N.lt (l ++ [x]).
Proof.
  induction l as [ | a l IH ]; intros Hs Hlt; simpl.
  - constructor; constructor.
  - apply StronglySorted_inv in Hs. destruct Hs as [Hs Ha].
    inversion Hlt; subst.
    constructor; [ apply IH; assumption | ].
    apply Forall_app. split; [ assumption | constructor; [ assumption | constructor ] ].
Qed.

Lemma sorted_NoDup (l : list N) : StronglySorted N.lt l -> NoDup l.
Proof.
  induction 1 as [ | a l Hs IH Ha ]; constructor; [ | assumption ].
  intros Hin. rewrite Forall_forall in Ha. specialize (Ha a Hin). lia.
Qed.

Lemma Forall_ids_filter (P : N -> Prop) f rows :
  Forall P (map Row._id rows) -> Forall P (map Row._id (filter f rows)).
Proof.
  induction rows as [ | row rows IH ]; simpl; intros H; [ constructor | ].
  inversion H; subst. destruct (f row); simpl; auto.
Qed.

Lemma sorted_ids_filter f rows :
  StronglySorted N.lt (map Row._id rows) ->
  StronglySorted N.lt (map Row._id (filter f rows)).
Proof.
  induction rows as [ | row rows IH ]; simpl; intros H; [ constructor | ].
  apply StronglySorted_inv in H. destruct H as [Hs Ha].
  destruct (f row); simpl; auto.
  constructor; [ auto | apply Forall_ids_filter; assumption ].
Qed.

Lemma Forall_ids_remove_first (P : N -> Prop) q rows :
  Forall P (map Row._id rows) ->
  Forall P (map Row._id (Mongo.remove_first q rows)).
Proof.
  induction rows as [ | row rows IH ]; simpl; intros H; [ constructor | ].
  inversion H; subst. destruct (Mongo.matches q row); simpl; auto.
Qed.

Lemma sorted_ids_remove_first q rows :
  StronglySorted N.lt (map Row._id rows) ->
  StronglySorted N.lt (map Row._id (Mongo.remove_first q rows)).
Proof.
  induction rows as [ | row rows IH ]; simpl; intros H; [ constructor | ].
  apply StronglySorted_inv in H. destruct H as [Hs Ha].
  destruct (Mongo.matches q row); simpl; auto.
  constructor; [ auto | apply Forall_ids_remove_first; assumption ].
Qed.

Lemma wf_empty : wf Mongo.empty.
Proof. split; constructor. Qed.

Lemma ids_insertOne m c :
  ids (snd (Mongo.insertOne m c)) = ids c ++ [Mongo.next_id c].
Proof. unfold ids. simpl. rewrite map_app. reflexivity. Qed.

Lemma wf_insertOne m c : wf c -> wf (snd (Mongo.insertOne m c)).
Proof.
  intros [Hs Hb]. split; rewrite ids_insertOne.
  - apply sorted_snoc; assumption.
  - simpl. apply Forall_app. split.
    + eapply Forall_impl; [ | exact Hb ]. simpl. intros; lia.
    + constructor; [ lia | constructor ].
Qed.

Lemma wf_deleteOne q c : wf c -> wf (Mongo.deleteOne q c).
Proof.
  intros [Hs Hb]. split; unfold ids; simpl.
  - apply sorted_ids_remove_first. exact Hs.
  - apply Forall_ids_remove_first. exact Hb.
Qed.

Lemma wf_NoDup c : wf c -> NoDup (ids c).
Proof. intros [Hs _]. apply sorted_NoDup. exact Hs. Qed.

Lemma wf_delete_result socket messageId c avail :
  wf c -> wf (fst (delete_result socket messageId c avail)).
Proof.
  intros H. unfold delete_result.
  destruct (Bson.new_ObjectId messageId); [ | exact H ].
  destruct (available avail); [ | exact H ].
  destruct (authorised socket a c); [ | exact H ].
  destruct (available (tl avail)); [ | exact H ].
  apply wf_deleteOne. exact H.
Qed.

End Ordered.

(** ** Steps of the server *)

Section Running.

Variable jwt_verify : string -> option User.

Local Open Scope N_scope.

Lemma handle_chat socket msg now w avail :
  System.handle (Server.on_chat_message socket msg now) w avail =
    if available avail then
      (Ok tt,
       {| System.store := snd (Mongo.insertOne (stored socket msg now) (System.store w));
          System.sockets := System.sockets w;
          System.next_sid := System.next_sid w |},
       [io_emit (chat_message msg (Bson.toString (Mongo.next_id (System.store w)))
                   (username (Socket.user socket)) (Some now))])
    else
      (Ok tt, w,
       [console error "Error al guardar o emitir el mensaje:" (Some MongoError)]).
Proof.
  unfold System.handle.
  destruct (available avail) eqn:Hav.
  - rewrite exec_chat_available by assumption. reflexivity.
  - rewrite exec_chat_unavailable by assumption. destruct w; reflexivity.
Qed.

Lemma handle_delete socket messageId w avail :
  System.handle (Server.on_delete_message socket messageId) w avail =
    (Ok tt,
     {| System.store := fst (delete_result socket messageId (System.store w) avail);
        System.sockets := System.sockets w;
        System.next_sid := System.next_sid w |},
     snd (delete_result socket messageId (System.store w) avail)).
Proof. unfold System.handle. rewrite exec_on_delete. reflexivity. Qed.

Lemma handle_connection socket w avail :
  System.handle (Server.on_connection socket) w avail =
    (Ok tt, w, greeting socket :: replay_outputs socket (System.store w) avail).
Proof.
  unfold System.handle. rewrite exec_on_connection. destruct w; reflexivity.
Qed.

Lemma delete_result_step socket messageId c avail :
  store_step c (fst (delete_result socket messageId c avail)).
Proof.
  unfold delete_result.
  destruct (Bson.new_ObjectId messageId); [ | constructor ].
  destruct (available avail); [ | constructor ].
  destruct (authorised socket a c); [ | constructor ].
  destruct (available (tl avail)); constructor.
Qed.

(** No handler lets an exception escape, and a step changes the collection
    by at most one insert or one delete. *)
Lemma step_returns w ev :
  exists w' outs,
    System.step jwt_verify w ev = (Ok tt, w', outs)
    /\ store_step (System.store w) (System.store w').
Proof.
  destruct ev as [ hs rec avail | sid msg now avail | sid messageId avail | sid ];
    simpl.
  - destruct (Server.io_use jwt_verify hs) as [ err | user ].
    + eexists; eexists; split; [ reflexivity | constructor ].
    + rewrite handle_connection. eexists; eexists; split; [ reflexivity | ].
      simpl. constructor.
  - destruct (System.lookup sid w) as [ socket | ].
    + rewrite handle_chat. destruct (available avail);
        eexists; eexists; (split; [ reflexivity | simpl; constructor ]).
    + eexists; eexists; split; [ reflexivity | constructor ].
  - destruct (System.lookup sid w) as [ socket | ].
    + rewrite handle_delete. eexists; eexists; split; [ reflexivity | ].
      simpl. apply delete_result_step.
    + eexists; eexists; split; [ reflexivity | constructor ].
  - destruct (System.lookup sid w) as [ socket | ].
    + eexists; eexists; split; [ reflexivity | simpl; constructor ].
    + eexists; eexists; split; [ reflexivity | constructor ].
Qed.

Lemma store_step_wf c c' : store_step c c' -> wf c -> wf c'.
Proof.
  intros [ | m | q ] H; [ exact H | apply wf_insertOne | apply wf_deleteOne ];
    exact H.
Qed.

Lemma store_step_next_id c c' :
  store_step c c' -> Mongo.next_id c <= Mongo.next_id c'.
Proof. intros [ | m | q ]; simpl; lia. Qed.

Lemma filter_known_ids before (l : list ObjectId) :
  incl l (ids before) ->
  filter (fun i => negb (existsb (N.eqb i) (ids before))) l = [].
Proof.
  induction l as [ | i l IH ]; simpl; intros H; [ reflexivity | ].
  assert (Hin : existsb (N.eqb i) (ids before) = true).
  { apply existsb_exists. exists i. split.
    - apply H. left. reflexivity.
    - apply N.eqb_refl. }
  rewrite Hin. simpl. apply IH. intros j Hj. apply H. right. exact Hj.
Qed.

Lemma ids_deleteOne_incl q c : incl (ids (Mongo.deleteOne q c)) (ids c).
Proof.
  unfold ids. simpl. generalize (Mongo.docs c) as rows.
  induction rows as [ | row rows IH ]; simpl; [ apply incl_refl | ].
  destruct (Mongo.matches q row).
  - apply incl_tl, incl_refl.
  - apply incl_cons; [ left; reflexivity | apply incl_tl; exact IH ].
Qed.

Lemma fresh_ids_step c c' :
  wf c -> store_step c c' ->
  fresh_ids c c' = [] \/ fresh_ids c c' = [Mongo.next_id c].
Proof.
  intros [Hs Hb] [ | m | q ]; unfold fresh_ids.
  - left. apply filter_known_ids, incl_refl.
  - right. rewrite ids_insertOne, filter_app.
    rewrite filter_known_ids by apply incl_refl. simpl.
    assert (Hout : existsb (N.eqb (Mongo.next_id c)) (ids c) = false).
    { destruct (existsb (N.eqb (Mongo.next_id c)) (ids c)) eqn:E; [ | reflexivity ].
      apply existsb_exists in E. destruct E as [i [Hi Heq]].
      apply N.eqb_eq in Heq. subst i.
      rewrite Forall_forall in Hb. specialize (Hb _ Hi). lia. }
    rewrite Hout. reflexivity.
  - left. apply filter_known_ids, ids_deleteOne_incl.
Qed.

Lemma fresh_ids_inserted c c' :
  store_step c c' -> fresh_ids c c' = [Mongo.next_id c] ->
  Mongo.next_id c < Mongo.next_id c'.
Proof.
  intros Hstep Hf. destruct Hstep as [ | m | q ]; simpl; try lia;
    unfold fresh_ids in Hf.
  - rewrite filter_known_ids in Hf by apply incl_refl. discriminate.
  - rewrite filter_known_ids in Hf by apply ids_deleteOne_incl. discriminate.
Qed.

Lemma assigned_ordered evs : forall w,
  wf (System.store w) ->
  StronglySorted N.lt (assigned jwt_verify w evs)
  /\ Forall (fun i => Mongo.next_id (System.store w) <= i) (assigned jwt_verify w evs).
Proof.
  induction evs as [ | ev evs IH ]; intros w Hwf; simpl.
  - split; constructor.
  - destruct (step_returns w ev) as [w1 [outs [Hstep Hstore]]].
    rewrite Hstep.
    pose proof (store_step_wf _ _ Hstore Hwf) as Hwf1.
    destruct (IH w1 Hwf1) as [Hs Hb].
    pose proof (store_step_next_id _ _ Hstore) as Hmono.
    destruct (fresh_ids_step _ _ Hwf Hstore) as [Hf | Hf].
    + rewrite Hf. simpl. split; [ exact Hs | ].
      eapply Forall_impl; [ | exact Hb ]. simpl. intros; lia.
    + pose proof (fresh_ids_inserted _ _ Hstore Hf) as Hlt.
      rewrite Hf. simpl. split.
      * constructor; [ exact Hs | ].
        eapply Forall_impl; [ | exact Hb ]. simpl. intros; lia.
      * constructor; [ lia | ].
        eapply Forall_impl; [ | exact Hb ]. simpl. intros; lia.
Qed.

Lemma run_returns evs : forall w,
  wf (System.store w) ->
  exists w' outs,
    System.run jwt_verify w evs = (Ok tt, w', outs) /\ wf (System.store w').
Proof.
  induction evs as [ | ev evs IH ]; intros w Hwf; simpl.
  - eexists; eexists; split; [ reflexivity | exact Hwf ].
  - destruct (step_returns w ev) as [w1 [outs1 [Hstep Hstore]]].
    rewrite Hstep.
    destruct (IH w1 (store_step_wf _ _ Hstore Hwf)) as [w2 [outs2 [Hrun Hwf2]]].
    rewrite Hrun. eexists; eexists; split; [ reflexivity | exact Hwf2 ].
Qed.

Lemma run_wf evs r w outs :
  System.run jwt_verify System.init evs = (r, w, outs) -> wf (System.store w).
Proof.
  intros Hrun.
  destruct (run_returns evs System.init wf_empty) as [w' [outs' [Hrun' Hwf]]].
  rewrite Hrun in Hrun'. inversion Hrun'; subst. exact Hwf.
Qed.

End Running.

(** ** The registry *)

Section Registry.

Variable jwt_verify : string -> option User.

Lemma registry_ok_init : registry_ok jwt_verify System.init.
Proof. constructor. Qed.

Lemma lookup_In sid w socket :
  System.lookup sid w = Some socket ->
  In socket (System.sockets w) /\ Socket.sid socket = sid.
Proof.
  unfold System.lookup. intros H. apply find_some in H.
  destruct H as [Hin Heq]. apply Nat.eqb_eq in Heq. auto.
Qed.

Lemma lookup_new w socket :
  registry_ok jwt_verify w ->
  Socket.sid socket = System.next_sid w ->
  List.find (fun s => Nat.eqb (Socket.sid s) (System.next_sid w))
    (System.sockets w ++ [socket]) = Some socket.
Proof.
  unfold registry_ok. intros Hok Hsid.
  induction (System.sockets w) as [ | s l IH ]; simpl.
  - rewrite Hsid, Nat.eqb_refl. reflexivity.
  - inversion Hok as [ | ? ? [Hlt _] Hrest ]; subst.
    destruct (Nat.eqb (Socket.sid s) (System.next_sid w)) eqn:E.
    + apply Nat.eqb_eq in E. lia.
    + apply IH. exact Hrest.
Qed.

Lemma step_registry_ok w ev w' r outs :
  registry_ok jwt_verify w ->
  System.step jwt_verify w ev = (r, w', outs) ->
  registry_ok jwt_verify w'.
Proof.
  unfold registry_ok. intros Hok.
  destruct ev as [ hs rec avail | sid msg now avail | sid messageId avail | sid ];
    simpl.
  - destruct (Server.io_use jwt_verify hs) as [ err | user ] eqn:Huse.
    + intros H; inversion H; subst. exact Hok.
    + rewrite handle_connection. intros H; inversion H; subst. simpl.
      apply Forall_app. split.
      * eapply Forall_impl; [ | exact Hok ]. simpl. intros s [Hlt Hs].
        split; [ lia | exact Hs ].
      * constructor; [ | constructor ]. simpl. split; [ lia | exact Huse ].
  - destruct (System.lookup sid w) as [ socket | ].
    + rewrite handle_chat. destruct (available avail);
        intros H; inversion H; subst; exact Hok.
    + intros H; inversion H; subst. exact Hok.
  - destruct (System.lookup sid w) as [ socket | ].
    + rewrite handle_delete. intros H; inversion H; subst. exact Hok.
    + intros H; inversion H; subst. exact Hok.
  - destruct (System.lookup sid w) as [ socket | ].
    + intros H; inversion H; subst. simpl.
      rewrite Forall_forall in *. intros s Hin.
      apply filter_In in Hin. apply Hok. tauto.
    + intros H; inversion H; subst. exact Hok.
Qed.

Lemma run_registry_ok evs : forall w w' r outs,
  registry_ok jwt_verify w ->
  System.run jwt_verify w evs = (r, w', outs) ->
  registry_ok jwt_verify w'.
Proof.
  induction evs as [ | ev evs IH ]; intros w w' r outs Hok; simpl.
  - intros H; inversion H; subst. exact Hok.
  - destruct (System.step jwt_verify w ev) as [[r1 w1] outs1] eqn:Hstep.
    pose proof (step_registry_ok _ _ _ _ _ Hok Hstep) as Hok1.
    destruct r1.
    + destruct (System.run jwt_verify w1 evs) as [[r2 w2] outs2] eqn:Hrun.
      intros H; inversion H; subst. eapply IH; eassumption.
    + intros H; inversion H; subst. exact Hok1.
Qed.

End Registry.

(** ** Deleting *)

Section Deleting.

Local Open Scope N_scope.

Lemma findOne_In q c row :
  Mongo.findOne q c = Some row ->
  In row (Mongo.docs c) /\ Mongo.matches q row = true.
Proof. unfold Mongo.findOne. apply find_some. Qed.





End Deleting.

(** ** Well-formed id strings *)

Lemma fromHex_all_hex s : forall acc,
  match Bson.fromHex s acc with
  | Some _ => Bson.all_hex s = true
  | None => Bson.all_hex s = false
  end.
Proof.
  induction s as [ | c s IH ]; intros acc; simpl; [ reflexivity | ].
  destruct (Bson.hex_value c); [ apply IH | reflexivity ].
Qed.

Lemma new_ObjectId_invalid s :
  Bson.isValid s = false <-> Bson.new_ObjectId s = Throw BSONError.
Proof.
  unfold Bson.isValid, Bson.new_ObjectId.
  pose proof (fromHex_all_hex s 0%N) as H.
  destruct (Nat.eqb (String.length s) 24); simpl.
  - destruct (Bson.fromHex s 0%N); rewrite H; split;
      intros; try discriminate; reflexivity.
  - split; reflexivity.
Qed.

Lemma new_ObjectId_truthy s oid :
  Bson.new_ObjectId s = Ok oid -> Js.truthy s = true.
Proof.
  unfold Bson.new_ObjectId. destruct s; [ discriminate | reflexivity ].
Qed.

(** The id a client reads in a ['chat message'] packet is the id the
    constructor reads back from it. *)
Section Hexadecimal.

Local Open Scope N_scope.

Lemma hex_value_digit d : d < 16 -> Bson.hex_value (Bson.hex_digit d) = Some d.
Proof.
  intros H.
  assert (Hd : d = 0 \/ d = 1 \/ d = 2 \/ d = 3 \/ d = 4 \/ d = 5 \/ d = 6
               \/ d = 7 \/ d = 8 \/ d = 9 \/ d = 10 \/ d = 11 \/ d = 12
               \/ d = 13 \/ d = 14 \/ d = 15) by lia.
  repeat (destruct Hd as [ -> | Hd ]; [ reflexivity | ]).
  subst d. reflexivity.
Qed.

Lemma length_toHex width : forall n acc,
  String.length (Bson.toHex width n acc) = (width + String.length acc)%nat.
Proof.
  induction width as [ | width IH ]; intros n acc; simpl; [ reflexivity | ].
  rewrite IH. simpl. lia.
Qed.

Lemma fromHex_toHex width : forall n acc a,
  Bson.fromHex (Bson.toHex width n acc) a
  = Bson.fromHex acc (a * 16 ^ N.of_nat width + n mod 16 ^ N.of_nat width).
Proof.
  induction width as [ | width IH ]; intros n acc a.
  - simpl. rewrite N.mod_1_r. f_equal. lia.
  - cbn [Bson.toHex]. rewrite IH. cbn [Bson.fromHex].
    rewrite hex_value_digit by (apply N.mod_lt; lia).
    f_equal. rewrite Nat2N.inj_succ, N.pow_succ_r'.
    rewrite (N.Div0.mod_mul_r n 16 (16 ^ N.of_nat width)). lia.
Qed.

Lemma new_ObjectId_toString (oid : ObjectId) :
  oid < 16 ^ 24 -> Bson.new_ObjectId (Bson.toString oid) = Ok oid.
Proof.
  intros H. unfold Bson.new_ObjectId, Bson.toString.
  rewrite length_toHex. simpl String.length. simpl Nat.eqb.
  rewrite fromHex_toHex. cbn [Bson.fromHex].
  change (N.of_nat 24) with 24.
  rewrite N.mod_small by exact H. reflexivity.
Qed.

End Hexadecimal.

(** ** Assigned ids *)

Section Assigned.

Variable jwt_verify : string -> option User.

Lemma ids_known_or_fresh before after :
  incl (ids after) (ids before ++ fresh_ids before after).
Proof.
  intros i Hin. apply in_or_app.
  destruct (existsb (N.eqb i) (ids before)) eqn:E.
  - left. apply existsb_exists in E. destruct E as [j [Hj Heq]].
    apply N.eqb_eq in Heq. subst j. exact Hj.
  - right. unfold fresh_ids. apply filter_In. split; [ exact Hin | ].
    rewrite E. reflexivity.
Qed.

Lemma run_ids_assigned evs : forall w,
  incl (ids (System.store (snd (fst (System.run jwt_verify w evs)))))
    (ids (System.store w) ++ assigned jwt_verify w evs).
Proof.
  induction evs as [ | ev evs IH ]; intros w; simpl.
  - rewrite app_nil_r. apply incl_refl.
  - destruct (step_returns jwt_verify w ev) as [w1 [outs1 [Hstep _]]].
    rewrite Hstep. specialize (IH w1).
    destruct (System.run jwt_verify w1 evs) as [[r2 w2] outs2]. simpl in *.
    intros i Hin. apply IH in Hin. apply in_app_or in Hin.
    rewrite app_assoc. apply in_or_app. destruct Hin as [Hin | Hin].
    + left. apply ids_known_or_fresh. exact Hin.
    + right. exact Hin.
Qed.

End Assigned.

(** ** The properties of the specification *)

(** C1, as stated, fails on [src/server/index.js]: there the author is the
    [auth.username] field of the handshake, so two handshakes that differ in
    that field only store different authors. *)
Lemma standalone_author_is_handshake_field :
  ~ (forall (name name' : option string) (msg : string),
        authors (exec (Standalone.on_chat_message (Sample.guest name) msg)
                   Mongo.empty [])
        = authors (exec (Standalone.on_chat_message (Sample.guest name') msg)
                     Mongo.empty [])).
Proof.
  intros H. specialize (H (Some "mallory") None "hi").
  vm_compute in H. discriminate.
Qed.

(** C1 (amended): on the authenticated server [src/index.js], a
    ['chat message'] event of a connected socket appends at most one record,
    and its author is the username the middleware verified from that socket's
    handshake cookie, whatever the payload and the [auth] object say; on
    [src/server/index.js], which binds no identity, the author is the
    handshake's [auth.username], or "anonymous" when that is left out. *)
Theorem chat_message_author
  (jwt_verify : string -> option User) (evs : list System.Event)
  (w : System.World) (outs : list Output) (sid : nat) (socket : Socket.t)
  (msg : string) (now : Date) (avail : list bool)
  (guest : Standalone.Socket) (c : Mongo.Collection) :
  System.run jwt_verify System.init evs = (Ok tt, w, outs) ->
  System.lookup sid w = Some socket ->
  (Server.io_use jwt_verify (Socket.handshake socket) = inr (Socket.user socket)
   /\ exists new,
        Mongo.docs (System.store
          (snd (fst (System.step jwt_verify w (System.chat sid msg now avail)))))
        = Mongo.docs (System.store w) ++ new
        /\ List.length new = (if available avail then 1 else 0)
        /\ Forall (fun row =>
                     Row.user row = username (Socket.user socket)
                     /\ Row.content row = msg) new)
  /\ (exists new,
        Mongo.docs (snd (fst (exec (Standalone.on_chat_message guest msg) c avail)))
        = Mongo.docs c ++ new
        /\ List.length new = (if available avail then 1 else 0)
        /\ Forall (fun row =>
                     Row.user row =
                       match Handshake.auth_username (Standalone.handshake guest) with
                       | Some name => name
                       | None => "anonymous"
                       end
                     /\ Row.content row = msg) new).
Proof.
  intros Hrun Hlookup. split; [ split | ].
  - pose proof (run_registry_ok jwt_verify evs _ _ _ _
                  (registry_ok_init jwt_verify) Hrun) as Hok.
    apply lookup_In in Hlookup. destruct Hlookup as [Hin _].
    unfold registry_ok in Hok. rewrite Forall_forall in Hok.
    apply (Hok socket Hin).
  - simpl. rewrite Hlookup, handle_chat.
    destruct (available avail); simpl.
    + eexists. split; [ reflexivity | ].
      split; [ reflexivity | ].
      constructor; [ split; reflexivity | constructor ].
    + exists []. rewrite app_nil_r. repeat split. constructor.
  - destruct (available avail) eqn:Hav.
    + rewrite exec_standalone_chat_available by assumption. simpl.
      eexists. split; [ reflexivity | ].
      split; [ reflexivity | ].
      constructor; [ split; reflexivity | constructor ].
    + rewrite exec_standalone_chat_unavailable by assumption. simpl.
      exists []. rewrite app_nil_r. repeat split. constructor.
Qed.

Lemma chat_message_author_witness :
  System.run Sample.jwt_verify System.init
    [System.connect Sample.alice_handshake false []]
  = (Ok tt, Sample.lobby, [greeting Sample.alice_socket])
  /\ System.lookup 0 Sample.lobby = Some Sample.alice_socket
  /\ Server.io_use Sample.jwt_verify Sample.alice_handshake = inr Sample.alice.
Proof.
  split; [ reflexivity | ]. split; [ reflexivity | ].
  apply (chat_message_author Sample.jwt_verify
           [System.connect Sample.alice_handshake false []]
           Sample.lobby [greeting Sample.alice_socket] 0 Sample.alice_socket
           "hi" 1000%N [] (Sample.guest None) Mongo.empty);
    reflexivity.
Defined.

(** C2: a delete request for a message that exists but has another author
    leaves the collection as it is and sends nothing to any client; what the
    server sends and prints is the same as for a request naming an id that
    is in no document, so the requester cannot tell the two apart. *)
Theorem foreign_delete_is_silent
  (socket : Socket.t) (messageId : string) (oid : ObjectId) (row : Row.t)
  (c absent : Mongo.Collection) (avail : list bool)
  (connected : list Socket.t) (sid : nat) :
  Bson.new_ObjectId messageId = Ok oid ->
  Mongo.findOne (Mongo.IdEq oid) c = Some row ->
  Row.user row <> username (Socket.user socket) ->
  Mongo.findOne (Mongo.IdEq oid) absent = None ->
  fst (exec (Server.on_delete_message socket messageId) c avail) = (Ok tt, c)
  /\ In row (Mongo.docs
               (snd (fst (exec (Server.on_delete_message socket messageId) c avail))))
  /\ wire (snd (exec (Server.on_delete_message socket messageId) c avail)) = []
  /\ System.delivered connected
       (snd (exec (Server.on_delete_message socket messageId) c avail)) sid = []
  /\ snd (exec (Server.on_delete_message socket messageId) c avail)
     = snd (exec (Server.on_delete_message socket messageId) absent avail).
Proof.
  intros Hid Hfound Hother Hnone.
  rewrite !exec_on_delete. unfold delete_result, authorised.
  rewrite Hid, Hfound, Hnone.
  apply String.eqb_neq in Hother. rewrite Hother.
  pose proof (findOne_In _ _ _ Hfound) as [Hin _].
  destruct (available avail); simpl; repeat split; exact Hin.
Qed.

Lemma foreign_delete_is_silent_witness :
  Bson.new_ObjectId (Bson.toString 0%N) = Ok 0%N
  /\ Mongo.findOne (Mongo.IdEq 0%N) Sample.one_message = Some Sample.hi
  /\ Row.user Sample.hi <> username (Socket.user (Sample.bob_socket Offset.zero false))
  /\ Mongo.findOne (Mongo.IdEq 0%N) Mongo.empty = None
  /\ fst (exec (Server.on_delete_message (Sample.bob_socket Offset.zero false)
                  (Bson.toString 0%N)) Sample.one_message [])
     = (Ok tt, Sample.one_message)
  /\ wire (snd (exec (Server.on_delete_message (Sample.bob_socket Offset.zero false)
                        (Bson.toString 0%N)) Sample.one_message [])) = [].
Proof.
  assert (Hother :
    Row.user Sample.hi
    <> username (Socket.user (Sample.bob_socket Offset.zero false)))
    by discriminate.
  split; [ reflexivity | ]. split; [ reflexivity | ].
  split; [ exact Hother | ]. split; [ reflexivity | ].
  split;
    apply (foreign_delete_is_silent (Sample.bob_socket Offset.zero false)
             (Bson.toString 0%N) 0%N Sample.hi Sample.one_message Mongo.empty
             [] [Sample.alice_socket] 0
             eq_refl eq_refl Hother eq_refl).
Defined.

(** C3: along every run of the server from the empty log, whichever
    connections send the events and in whatever order, the ids the store
    assigns are strictly increasing in the order of assignment and pairwise
    distinct; every id found in the log is one of them, and the log itself is
    strictly increasing in insertion order. *)
Theorem assigned_ids_increase
  (jwt_verify : string -> option User) (evs : list System.Event) :
  StronglySorted N.lt (assigned jwt_verify System.init evs)
  /\ NoDup (assigned jwt_verify System.init evs)
  /\ incl (ids (System.store (snd (fst (System.run jwt_verify System.init evs)))))
       (assigned jwt_verify System.init evs)
  /\ StronglySorted N.lt
       (ids (System.store (snd (fst (System.run jwt_verify System.init evs)))))
  /\ NoDup (ids (System.store (snd (fst (System.run jwt_verify System.init evs))))).
Proof.
  destruct (assigned_ordered jwt_verify evs System.init wf_empty) as [Hs _].
  destruct (run_returns jwt_verify evs System.init wf_empty)
    as [w [outs [Hrun Hwf]]].
  split; [ exact Hs | ]. split; [ apply sorted_NoDup; exact Hs | ].
  split; [ apply (run_ids_assigned jwt_verify evs System.init) | ].
  rewrite Hrun. simpl. split; [ apply Hwf | apply wf_NoDup; exact Hwf ].
Qed.

(** Two connections taking turns, with a delete and a failed insert in
    between: the ids go up, and the deleted one does not come back. *)
Example assigned_ids_interleaved :
  let evs :=
    [System.connect Sample.alice_handshake false [];
     System.connect (Sample.bob_handshake Offset.zero) false [];
     System.chat 0 "hi" 1000%N [];
     System.chat 1 "hello" 1001%N [];
     System.delete 1 (Bson.toString 1%N) [];
     System.chat 0 "lost" 1002%N [false];
     System.chat 0 "bye" 1003%N []] in
  assigned Sample.jwt_verify System.init evs = [0; 1; 2]%N
  /\ ids (System.store (snd (fst (System.run Sample.jwt_verify System.init evs))))
     = [0; 2]%N.
Proof. split; reflexivity. Qed.

(** C4: on every log the server can reach, with the store available, the
    replay of a fresh connection sends, to that socket only, every message
    of the log when the offset is left out or is the number 0, and exactly
    the messages with an id above [k] when the offset is the id [k]; in both
    cases in the order of the log, which is ascending in id. *)
Theorem replay_after_offset
  (jwt_verify : string -> option User) (evs : list System.Event)
  (w : System.World) (outs : list Output)
  (socket : Socket.t) (avail : list bool) :
  System.run jwt_verify System.init evs = (Ok tt, w, outs) ->
  Socket.recovered socket = false ->
  available avail = true ->
  let c := System.store w in
  StronglySorted N.lt (ids c)
  /\ (Handshake.serverOffset (Socket.handshake socket) = Offset.absent
      \/ Handshake.serverOffset (Socket.handshake socket) = Offset.zero ->
      snd (exec (Server.on_connection socket) c avail)
      = greeting socket :: map (replayed socket) (Mongo.docs c))
  /\ (forall s k,
        Handshake.serverOffset (Socket.handshake socket) = Offset.last_seen s ->
        Bson.new_ObjectId s = Ok k ->
        exists results,
          snd (exec (Server.on_connection socket) c avail)
          = greeting socket :: map (replayed socket) results
          /\ (forall row,
                In row results <-> In row (Mongo.docs c) /\ (k < Row._id row)%N)
          /\ StronglySorted N.lt (map Row._id results)).
Proof.
  intros Hrun Hfresh Hav c.
  pose proof (run_wf jwt_verify evs _ _ _ Hrun) as [Hsorted _].
  fold c in Hsorted. split; [ exact Hsorted | ].
  rewrite exec_on_connection. unfold replay_outputs. rewrite Hfresh, Hav.
  split.
  - intros [Hoff | Hoff]; rewrite Hoff; simpl; unfold Mongo.find; simpl;
      (rewrite forallb_filter_id; [ reflexivity | ]);
      apply forallb_forall; reflexivity.
  - intros s k Hoff Hk. rewrite Hoff. simpl.
    rewrite (new_ObjectId_truthy _ _ Hk), Hk. simpl.
    exists (Mongo.find (Mongo.IdGt k) c). split; [ reflexivity | ]. split.
    + intros row. unfold Mongo.find. rewrite filter_In. simpl.
      rewrite N.ltb_lt. reflexivity.
    + unfold Mongo.find. apply sorted_ids_filter. exact Hsorted.
Qed.

Lemma replay_after_offset_witness :
  System.run Sample.jwt_verify System.init Sample.history
  = (Ok tt, Sample.chatting,
     [greeting Sample.alice_socket;
      io_emit (chat_message "hi" (Bson.toString 0%N) "alice" (Some 1000%N))])
  /\ Socket.recovered (Sample.bob_socket Offset.zero false) = false
  /\ snd (exec (Server.on_connection (Sample.bob_socket Offset.zero false))
            Sample.one_message [])
     = [greeting (Sample.bob_socket Offset.zero false);
        socket_emit 1
          (chat_message "hi" "000000000000000000000000" "alice" (Some 1000%N))].
Proof.
  split; [ reflexivity | ]. split; [ reflexivity | ].
  apply (proj1 (proj2 (replay_after_offset Sample.jwt_verify Sample.history
                         Sample.chatting
                         [greeting Sample.alice_socket;
                          io_emit (chat_message "hi" (Bson.toString 0%N) "alice"
                                     (Some 1000%N))]
                         (Sample.bob_socket Offset.zero false) []
                         eq_refl eq_refl eq_refl))).
  right. reflexivity.
Defined.



(** C6: when the insert of a ['chat message'] event fails, the handler
    returns normally, the collection is what it was, and the only output is
    the server's own error line: nothing is broadcast and nothing is sent
    back to the sender. *)
Theorem failed_insert_drops_message
  (socket : Socket.t) (msg : string) (now : Date) (c : Mongo.Collection)
  (avail : list bool) (connected : list Socket.t) (sid : nat) :
  available avail = false ->
  exec (Server.on_chat_message socket msg now) c avail
  = (Ok tt, c,
     [console error "Error al guardar o emitir el mensaje:" (Some MongoError)])
  /\ wire (snd (exec (Server.on_chat_message socket msg now) c avail)) = []
  /\ System.delivered connected
       (snd (exec (Server.on_chat_message socket msg now) c avail)) sid = [].
Proof.
  intros Hav. rewrite exec_chat_unavailable by assumption. repeat split.
Qed.

Lemma failed_insert_drops_message_witness :
  available [false] = false
  /\ exec (Server.on_chat_message Sample.alice_socket "hi" 1000%N)
       Mongo.empty [false]
     = (Ok tt, Mongo.empty,
        [console error "Error al guardar o emitir el mensaje:" (Some MongoError)]).
Proof.
  split; [ reflexivity | ].
  apply (failed_insert_drops_message Sample.alice_socket "hi" 1000%N
           Mongo.empty [false] [Sample.alice_socket] 0).
  reflexivity.
Defined.



(** C8, as stated, fails on the server: a ['chat message'] event with empty
    content is stored and broadcast. *)
Lemma empty_message_is_relayed :
  ~ (forall (socket : Socket.t) (now : Date) (c : Mongo.Collection)
            (avail : list bool),
        snd (fst (exec (Server.on_chat_message socket "" now) c avail)) = c
        /\ wire (snd (exec (Server.on_chat_message socket "" now) c avail)) = []).
Proof.
  intros H.
  destruct (H Sample.alice_socket 1000%N Mongo.empty []) as [Hlog _].
  vm_compute in Hlog. discriminate.
Qed.

(** C8 (amended): the client's form sends no ['chat message'] event when the
    input is empty, so nothing is stored or broadcast and no error shows; the
    server's handler does not look at the content: with the store available,
    an event with any content, the empty one included, is stored and
    broadcast. *)
Theorem empty_message_stopped_by_client_only
  (socket : Socket.t) (msg : string) (now : Date) (c : Mongo.Collection)
  (avail : list bool) :
  available avail = true ->
  Client.submit "" = ([], "")
  /\ (forall input_value,
        fst (Client.submit input_value) = []
        <-> input_value = "")
  /\ exec (Server.on_chat_message socket msg now) c avail
     = (Ok tt,
        {| Mongo.docs :=
             Mongo.docs c
             ++ [ {| Row._id := Mongo.next_id c;
                     Row.message :=
                       {| Message.content := msg;
                          Message.user := username (Socket.user socket);
                          Message.timestamp := Some now |} |} ];
           Mongo.next_id := N.succ (Mongo.next_id c) |},
        [io_emit (chat_message msg (Bson.toString (Mongo.next_id c))
                    (username (Socket.user socket)) (Some now))]).
Proof.
  intros Hav. split; [ reflexivity | ]. split.
  - intros input_value. unfold Client.submit.
    destruct input_value; simpl; split; intros H;
      try reflexivity; discriminate.
  - rewrite exec_chat_available by assumption. reflexivity.
Qed.

Lemma empty_message_stopped_by_client_only_witness :
  available [] = true
  /\ exec (Server.on_chat_message Sample.alice_socket "" 1000%N) Mongo.empty []
     = (Ok tt,
        {| Mongo.docs :=
             [ {| Row._id := 0%N;
                  Row.message :=
                    {| Message.content := "";
                       Message.user := "alice";
                       Message.timestamp := Some 1000%N |} |} ];
           Mongo.next_id := 1%N |},
        [io_emit (chat_message "" "000000000000000000000000" "alice"
                    (Some 1000%N))]).
Proof.
  split; [ reflexivity | ].
  apply (empty_message_stopped_by_client_only Sample.alice_socket ""
           1000%N Mongo.empty []).
  reflexivity.
Defined.

(** C9: a delete request whose [messageId] is no well-formed id string
    makes the [ObjectId] constructor throw, and the handler catches it: the
    step returns normally, the world (log and registry) is unchanged, the
    only output is the server's error line, no connection receives anything,
    and the requesting socket is still connected. *)
Theorem malformed_delete_is_contained
  (jwt_verify : string -> option User) (w : System.World) (sid : nat)
  (socket : Socket.t) (messageId : string) (avail : list bool) (sid' : nat) :
  System.lookup sid w = Some socket ->
  Bson.isValid messageId = false ->
  Bson.new_ObjectId messageId = Throw BSONError
  /\ System.step jwt_verify w (System.delete sid messageId avail)
     = (Ok tt, w, [delete_error BSONError])
  /\ wire [delete_error BSONError] = []
  /\ System.delivered (System.sockets w) [delete_error BSONError] sid' = []
  /\ System.lookup sid
       (snd (fst (System.step jwt_verify w (System.delete sid messageId avail))))
     = Some socket.
Proof.
  intros Hlookup Hbad. apply new_ObjectId_invalid in Hbad.
  assert (Hstep :
    System.step jwt_verify w (System.delete sid messageId avail)
    = (Ok tt, w, [delete_error BSONError])).
  { simpl. rewrite Hlookup, handle_delete. unfold delete_result.
    rewrite Hbad. simpl. destruct w; reflexivity. }
  rewrite Hstep. repeat split; assumption.
Qed.

Lemma malformed_delete_is_contained_witness :
  System.lookup 0 Sample.lobby = Some Sample.alice_socket
  /\ Bson.isValid "not-an-id" = false
  /\ System.step Sample.jwt_verify Sample.lobby
       (System.delete 0 "not-an-id" [])
     = (Ok tt, Sample.lobby, [delete_error BSONError]).
Proof.
  split; [ reflexivity | ]. split; [ reflexivity | ].
  apply (malformed_delete_is_contained Sample.jwt_verify Sample.lobby 0
           Sample.alice_socket "not-an-id" [] 0 eq_refl eq_refl).
Defined.

(** C10, as stated, fails for the empty string: it is present and is no
    well-formed id, but it is falsy, so the replay takes the branch of the
    absent offset and sends the whole log. *)
Lemma empty_offset_replays_everything :
  ~ (forall (socket : Socket.t) (s : string) (c : Mongo.Collection)
            (avail : list bool),
        Socket.recovered socket = false ->
        Handshake.serverOffset (Socket.handshake socket) = Offset.last_seen s ->
        Bson.isValid s = false ->
        wire (snd (exec (Server.on_connection socket) c avail)) = []).
Proof.
  intros H.
  specialize (H (Sample.bob_socket (Offset.last_seen "") false) ""
                Sample.one_message [] eq_refl eq_refl eq_refl).
  vm_compute in H. discriminate.
Qed.

(** C10 (amended): a fresh handshake that passes the middleware and declares
    as offset a non-empty string that is no well-formed id gets nothing
    replayed: the constructor's error is caught and printed.  The socket is
    connected all the same: a later ['chat message'] event of it is stored
    and broadcast, and broadcasts reach it. *)
Theorem malformed_offset_still_connects
  (jwt_verify : string -> option User) (evs : list System.Event)
  (w : System.World) (outs : list Output) (handshake : Handshake.t)
  (user : User) (s : string) (avail avail' : list bool)
  (msg : string) (now : Date) (p : Packet) :
  System.run jwt_verify System.init evs = (Ok tt, w, outs) ->
  Server.io_use jwt_verify handshake = inr user ->
  Handshake.serverOffset handshake = Offset.last_seen s ->
  Js.truthy s = true ->
  Bson.isValid s = false ->
  available avail' = true ->
  let socket :=
    {| Socket.sid := System.next_sid w;
       Socket.handshake := handshake;
       Socket.user := user;
       Socket.recovered := false |} in
  let w' :=
    {| System.store := System.store w;
       System.sockets := System.sockets w ++ [socket];
       System.next_sid := S (System.next_sid w) |} in
  System.step jwt_verify w (System.connect handshake false avail)
  = (Ok tt, w', [greeting socket; recovery_error BSONError])
  /\ wire [greeting socket; recovery_error BSONError] = []
  /\ System.lookup (System.next_sid w) w' = Some socket
  /\ System.step jwt_verify w' (System.chat (System.next_sid w) msg now avail')
     = (Ok tt,
        {| System.store :=
             snd (Mongo.insertOne (stored socket msg now) (System.store w));
           System.sockets := System.sockets w';
           System.next_sid := System.next_sid w' |},
        [io_emit (chat_message msg (Bson.toString (Mongo.next_id (System.store w)))
                    (username user) (Some now))])
  /\ System.delivered (System.sockets w') [io_emit p] (System.next_sid w) = [p].
Proof.
  intros Hrun Huse Hoff Htruthy Hbad Hav socket w'.
  apply new_ObjectId_invalid in Hbad.
  pose proof (run_registry_ok jwt_verify evs _ _ _ _
                (registry_ok_init jwt_verify) Hrun) as Hok.
  assert (Hlookup : System.lookup (System.next_sid w) w' = Some socket).
  { unfold System.lookup. simpl. apply (lookup_new jwt_verify); auto. }
  split; [ | split; [ reflexivity | split; [ exact Hlookup | split ] ] ].
  - simpl. rewrite Huse, handle_connection. simpl.
    unfold replay_outputs, replay_query. simpl.
    rewrite Hoff, Htruthy, Hbad. reflexivity.
  - simpl System.step. rewrite Hlookup, handle_chat, Hav. reflexivity.
  - simpl. rewrite existsb_app. simpl. rewrite Nat.eqb_refl.
    rewrite orb_true_r. reflexivity.
Qed.

Lemma malformed_offset_still_connects_witness :
  System.run Sample.jwt_verify System.init
    [System.connect Sample.alice_handshake false []]
  = (Ok tt, Sample.lobby, [greeting Sample.alice_socket])
  /\ Bson.isValid "7" = false
  /\ System.step Sample.jwt_verify Sample.lobby
       (System.connect (Sample.bob_handshake (Offset.last_seen "7")) false [])
     = (Ok tt,
        {| System.store := Mongo.empty;
           System.sockets :=
             [Sample.alice_socket; Sample.bob_socket (Offset.last_seen "7") false];
           System.next_sid := 2 |},
        [greeting (Sample.bob_socket (Offset.last_seen "7") false);
         recovery_error BSONError]).
Proof.
  split; [ reflexivity | ]. split; [ reflexivity | ].
  apply (malformed_offset_still_connects Sample.jwt_verify
           [System.connect Sample.alice_handshake false []]
           Sample.lobby [greeting Sample.alice_socket]
           (Sample.bob_handshake (Offset.last_seen "7")) Sample.bob "7" [] []
           "hello" 1001%N (message_deleted "x")
           eq_refl eq_refl eq_refl eq_refl eq_refl eq_refl).
Defined.

(** * Further properties of the code *)

(** ** Splitting and trimming *)

Lemma lacks_app c a b :
  lacks c (a ++ b)%string = lacks c a && lacks c b.
Proof.
  induction a as [ | c' a IH ]; simpl; [ reflexivity | ].
  rewrite IH, andb_assoc. reflexivity.
Qed.

Lemma split_not_nil sep s : Js.split sep s <> [].
Proof.
  destruct s as [ | c s ]; simpl; [ discriminate | ].
  destruct (Ascii.eqb c sep); [ discriminate | ].
  destruct (Js.split sep s); discriminate.
Qed.

Lemma split_lacks sep s : lacks sep s = true -> Js.split sep s = [s].
Proof.
  induction s as [ | c s IH ]; simpl; [ reflexivity | ].
  intros H. apply andb_true_iff in H. destruct H as [Hc Hs].
  apply negb_true_iff in Hc. rewrite Hc, (IH Hs). reflexivity.
Qed.

Lemma split_app sep a b :
  Js.split sep (a ++ String sep b)%string = Js.split sep a ++ Js.split sep b.
Proof.
  induction a as [ | c a IH ]; simpl.
  - rewrite Ascii.eqb_refl. reflexivity.
  - destruct (Ascii.eqb c sep); [ rewrite IH; reflexivity | ].
    rewrite IH.
    destruct (Js.split sep a) as [ | piece pieces ] eqn:E;
      [ exfalso; exact (split_not_nil _ _ E) | reflexivity ].
Qed.



Lemma trimEnd_keeps_prefix p : forall t,
  p <> EmptyString ->
  Js.is_space (match String.get (String.length p - 1) p with
               | Some c => c
               | None => " "%char
               end) = false ->
  exists t', Js.trimEnd (p ++ t) = (p ++ t')%string.
Proof.
  induction p as [ | c p IH ]; intros t Hne Hlast; [ congruence | ].
  destruct p as [ | c' p ].
  - simpl in *. destruct (Js.trimEnd t) as [ | d r ].
    + rewrite Hlast. exists EmptyString. reflexivity.
    + exists (String d r). reflexivity.
  - assert (Hlast' :
      Js.is_space (match String.get (String.length (String c' p) - 1) (String c' p) with
                   | Some c0 => c0
                   | None => " "%char
                   end) = false).
    { simpl in Hlast. simpl. rewrite Nat.sub_0_r in *.
      destruct p; simpl in *; exact Hlast. }
    destruct (IH t ltac:(discriminate) Hlast') as [t' Ht'].
    exists t'. change (String c (String c' p) ++ t)%string
      with (String c (String c' p ++ t))%string.
    cbn [Js.trimEnd]. rewrite Ht'. reflexivity.
Qed.

Lemma startsWith_app p t : Js.startsWith (p ++ t) p = true.
Proof.
  unfold Js.startsWith. induction p as [ | c p IH ]; simpl.
  - destruct t; reflexivity.
  - destruct (ascii_dec c c); [ exact IH | congruence ].
Qed.

Lemma token_cookie_matches lead token :
  lead = EmptyString \/ lead = " " ->
  Js.startsWith (Js.trim (lead ++ "access_token=" ++ token)) "access_token="
  = true.
Proof.
  intros Hlead.
  assert (Hstart :
    Js.trimStart (lead ++ "access_token=" ++ token)
    = ("access_token=" ++ token)%string).
  { destruct Hlead as [ -> | -> ]; reflexivity. }
  unfold Js.trim. rewrite Hstart.
  destruct (trimEnd_keeps_prefix "access_token=" token) as [t' Ht'];
    [ discriminate | reflexivity | ].
  rewrite Ht'. apply startsWith_app.
Qed.

Lemma token_cookie_value lead token rest :
  lead = EmptyString \/ lead = " " ->
  lacks "=" token = true ->
  rest = EmptyString \/ (exists more, rest = String "=" more) ->
  nth_error (Js.split "=" (lead ++ "access_token=" ++ token ++ rest)) 1
  = Some token.
Proof.
  intros Hlead Htoken Hrest.
  assert (Hname : lacks "=" (lead ++ "access_token") = true).
  { destruct Hlead as [ -> | -> ]; reflexivity. }
  replace (lead ++ "access_token=" ++ token ++ rest)%string
    with ((lead ++ "access_token") ++ String "=" (token ++ rest))%string
    by (destruct Hlead as [ -> | -> ]; reflexivity).
  rewrite split_app, (split_lacks _ _ Hname). simpl.
  destruct Hrest as [ -> | [more ->] ].
  - rewrite (split_lacks "=" (token ++ "")).
    + f_equal. induction token; simpl; [ reflexivity | ].
      f_equal. apply IHtoken. simpl in Htoken.
      apply andb_true_iff in Htoken. tauto.
    + rewrite lacks_app, Htoken. reflexivity.
  - rewrite split_app, (split_lacks _ _ Htoken). reflexivity.
Qed.

(** ** The handshake middleware *)

Lemma find_piece {A} (f : A -> bool) before x after :
  Forall (fun y => f y = false) before -> f x = true ->
  List.find f (before ++ x :: after) = Some x.
Proof.
  induction 1 as [ | y before Hy _ IH ]; intros Hx; simpl.
  - rewrite Hx. reflexivity.
  - rewrite Hy. apply IH. exact Hx.
Qed.





(** X3: the middleware cuts the cookie's value at its first [=]: for a
    cookie [access_token=<head>=<tail>] it verifies [<head>] alone, so the
    rest of the value has no part in who the connection is. *)
Theorem middleware_cuts_token_at_equals
  (jwt_verify : string -> option User) (head tail : string)
  (auth_username : option string) (serverOffset : Offset.t) :
  lacks ";" head = true ->
  lacks "=" head = true ->
  lacks ";" tail = true ->
  Server.io_use jwt_verify
    {| Handshake.cookie :=
         Some ("access_token=" ++ head ++ String "=" tail)%string;
       Handshake.auth_username := auth_username;
       Handshake.serverOffset := serverOffset |}
  = match jwt_verify head with
    | Some user => inr user
    | None => inl Server.invalid_token
    end.
Proof.
  intros Hsemi Heq Htail.
  set (cookies := ("access_token=" ++ head ++ String "=" tail)%string).
  assert (Hlacks : lacks ";" cookies = true).
  { unfold cookies. rewrite !lacks_app. simpl. rewrite Hsemi, Htail.
    reflexivity. }
  unfold Server.io_use. simpl Handshake.cookie. cbv iota beta.
  rewrite (split_lacks _ _ Hlacks).
  change (Js.truthy cookies) with true. simpl negb. cbv iota.
  pose proof (token_cookie_matches EmptyString (head ++ String "=" tail)
                (or_introl eq_refl)) as Hmatch.
  change (("" ++ "access_token=" ++ head ++ String "=" tail)%string)
    with cookies in Hmatch.
  simpl List.find. rewrite Hmatch.
  pose proof (token_cookie_value EmptyString head (String "=" tail)
                (or_introl eq_refl) Heq (or_intror (ex_intro _ tail eq_refl)))
    as Hvalue.
  change (("" ++ "access_token=" ++ head ++ String "=" tail)%string)
    with cookies in Hvalue.
  rewrite Hvalue. reflexivity.
Qed.

Lemma middleware_cuts_token_at_equals_witness :
  Server.io_use Sample.jwt_verify
    {| Handshake.cookie := Some "access_token=alice.jwt=bob.jwt";
       Handshake.auth_username := None;
       Handshake.serverOffset := Offset.zero |}
  = inr Sample.alice.
Proof.
  apply (middleware_cuts_token_at_equals Sample.jwt_verify "alice.jwt" "bob.jwt"
           None Offset.zero);
    reflexivity.
Defined.

(** ** Who can change the log *)

Lemma removed_row_found q rows row :
  In row rows -> ~ In row (Mongo.remove_first q rows) ->
  List.find (Mongo.matches q) rows = Some row.
Proof.
  induction rows as [ | r rows IH ]; simpl; intros Hin Hout; [ tauto | ].
  destruct (Mongo.matches q r) eqn:E.
  - destruct Hin as [ -> | Hin ]; [ reflexivity | tauto ].
  - simpl in Hout. destruct Hin as [ -> | Hin ]; [ tauto | ].
    apply IH; tauto.
Qed.


(** X4: whatever the event, a row leaves the log in one way only: a
    ['delete message'] request of a connected socket whose verified username
    is the row's author and whose [messageId] reads as the row's id; that
    step broadcasts the one ['message deleted'] event. *)
Theorem only_author_deletes
  (jwt_verify : string -> option User) (w w' : System.World)
  (ev : System.Event) (outs : list Output) (row : Row.t) :
  System.step jwt_verify w ev = (Ok tt, w', outs) ->
  In row (Mongo.docs (System.store w)) ->
  ~ In row (Mongo.docs (System.store w')) ->
  exists sid socket messageId avail,
    ev = System.delete sid messageId avail
    /\ System.lookup sid w = Some socket
    /\ Row.user row = username (Socket.user socket)
    /\ Bson.new_ObjectId messageId = Ok (Row._id row)
    /\ outs = [io_emit (message_deleted messageId)].
Proof.
  intros Hstep Hin Hout.
  destruct ev as [ hs rec avail | sid msg now avail | sid messageId avail | sid ];
    simpl in Hstep.
  - destruct (Server.io_use jwt_verify hs).
    + inversion Hstep; subst. tauto.
    + rewrite handle_connection in Hstep. inversion Hstep; subst. simpl in Hout.
      tauto.
  - destruct (System.lookup sid w) as [ socket | ].
    + rewrite handle_chat in Hstep. destruct (available avail);
        inversion Hstep; subst; simpl in Hout; [ | tauto ].
      exfalso. apply Hout. apply in_or_app. left. exact Hin.
    + inversion Hstep; subst. tauto.
  - destruct (System.lookup sid w) as [ socket | ] eqn:Hlookup.
    + rewrite handle_delete in Hstep. unfold delete_result in Hstep.
      destruct (Bson.new_ObjectId messageId) as [ oid | e ] eqn:Hid;
        [ | inversion Hstep; subst; simpl in Hout; tauto ].
      destruct (available avail);
        [ | inversion Hstep; subst; simpl in Hout; tauto ].
      destruct (authorised socket oid (System.store w)) eqn:Hauth;
        [ | inversion Hstep; subst; simpl in Hout; tauto ].
      destruct (available (tl avail));
        inversion Hstep; subst; simpl in Hout; [ | tauto ].
      pose proof (removed_row_found _ _ _ Hin Hout) as Hfound.
      unfold authorised, Mongo.findOne in Hauth. rewrite Hfound in Hauth.
      apply String.eqb_eq in Hauth.
      apply find_some in Hfound. destruct Hfound as [_ Hmatch].
      simpl in Hmatch. apply N.eqb_eq in Hmatch. subst oid.
      exists sid, socket, messageId, avail. repeat split; assumption.
    + inversion Hstep; subst. tauto.
  - destruct (System.lookup sid w); inversion Hstep; subst; simpl in Hout; tauto.
Qed.

Lemma only_author_deletes_witness :
  System.step Sample.jwt_verify Sample.chatting
    (System.delete 0 (Bson.toString 0%N) [])
  = (Ok tt, Sample.emptied, [io_emit (message_deleted (Bson.toString 0%N))])
  /\ exists sid socket messageId avail,
       System.delete 0 (Bson.toString 0%N) []
       = System.delete sid messageId avail
       /\ System.lookup sid Sample.chatting = Some socket
       /\ Row.user Sample.hi = username (Socket.user socket)
       /\ Bson.new_ObjectId messageId = Ok (Row._id Sample.hi)
       /\ [io_emit (message_deleted (Bson.toString 0%N))]
          = [io_emit (message_deleted messageId)].
Proof.
  split; [ reflexivity | ].
  apply (only_author_deletes Sample.jwt_verify Sample.chatting Sample.emptied
           (System.delete 0 (Bson.toString 0%N) [])
           [io_emit (message_deleted (Bson.toString 0%N))] Sample.hi).
  - reflexivity.
  - left. reflexivity.
  - intros [].
Defined.



Lemma In_remove_first q rows (row : Row.t) :
  In row (Mongo.remove_first q rows) -> In row rows.
Proof.
  induction rows as [ | r rows IH ]; simpl; [ tauto | ].
  destruct (Mongo.matches q r); simpl; intuition.
Qed.

(** X24: no step edits a stored message.  A row found in the log after a
    step either was in the log before it, unchanged, or is the message of
    the ['chat message'] event just handled: the given content, the
    sender's verified username, the clock's time, under the next id. *)
Theorem rows_are_never_edited
  (jwt_verify : string -> option User) (w w' : System.World)
  (ev : System.Event) (r : Result unit) (outs : list Output) (row : Row.t) :
  System.step jwt_verify w ev = (r, w', outs) ->
  In row (Mongo.docs (System.store w')) ->
  In row (Mongo.docs (System.store w))
  \/ exists sid socket msg now avail,
       ev = System.chat sid msg now avail
       /\ System.lookup sid w = Some socket
       /\ row = {| Row._id := Mongo.next_id (System.store w);
                   Row.message :=
                     {| Message.content := msg;
                        Message.user := username (Socket.user socket);
                        Message.timestamp := Some now |} |}.
Proof.
  intros Hstep Hin.
  destruct ev as [ hs rec avail | sid msg now avail | sid messageId avail | sid ];
    simpl in Hstep.
  - destruct (Server.io_use jwt_verify hs).
    + inversion Hstep; subst. left. exact Hin.
    + rewrite handle_connection in Hstep. inversion Hstep; subst. left.
      exact Hin.
  - destruct (System.lookup sid w) as [ socket | ] eqn:Hlookup.
    + rewrite handle_chat in Hstep. destruct (available avail);
        inversion Hstep; subst; [ | left; exact Hin ].
      simpl in Hin. apply in_app_or in Hin.
      destruct Hin as [ Hin | [ <- | [] ] ]; [ left; exact Hin | right ].
      exists sid, socket, msg, now, avail. repeat split; assumption.
    + inversion Hstep; subst. left. exact Hin.
  - left. destruct (System.lookup sid w) as [ socket | ].
    + rewrite handle_delete in Hstep. inversion Hstep; subst. simpl in Hin.
      unfold delete_result in Hin.
      destruct (Bson.new_ObjectId messageId); [ | exact Hin ].
      destruct (available avail); [ | exact Hin ].
      destruct (authorised socket a (System.store w)); [ | exact Hin ].
      destruct (available (tl avail)); [ | exact Hin ].
      simpl in Hin. apply In_remove_first in Hin. exact Hin.
    + inversion Hstep; subst. exact Hin.
  - left. destruct (System.lookup sid w); inversion Hstep; subst; exact Hin.
Qed.

Lemma rows_are_never_edited_witness :
  System.step Sample.jwt_verify Sample.lobby (System.chat 0 "hi" 1000%N [])
  = (Ok tt, Sample.chatting,
     [io_emit (chat_message "hi" (Bson.toString 0%N) "alice" (Some 1000%N))])
  /\ (In Sample.hi (Mongo.docs (System.store Sample.lobby))
      \/ exists sid socket msg now avail,
           System.chat 0 "hi" 1000%N [] = System.chat sid msg now avail
           /\ System.lookup sid Sample.lobby = Some socket
           /\ Sample.hi
              = {| Row._id := Mongo.next_id (System.store Sample.lobby);
                   Row.message :=
                     {| Message.content := msg;
                        Message.user := username (Socket.user socket);
                        Message.timestamp := Some now |} |}).
Proof.
  split; [ reflexivity | ].
  apply (rows_are_never_edited Sample.jwt_verify Sample.lobby Sample.chatting
           (System.chat 0 "hi" 1000%N []) (Ok tt)
           [io_emit (chat_message "hi" (Bson.toString 0%N) "alice" (Some 1000%N))]
           Sample.hi).
  - reflexivity.
  - left. reflexivity.
Defined.

(** ** Whose name a message carries *)

Section Authors.

Variable jwt_verify : string -> option User.

Lemma io_use_verified handshake user :
  Server.io_use jwt_verify handshake = inr user ->
  exists token, jwt_verify token = Some user.
Proof.
  unfold Server.io_use. intros H.
  destruct (Handshake.cookie handshake) as [ cookies | ]; [ | discriminate ].
  destruct (negb (Js.truthy cookies)); [ discriminate | ].
  destruct (List.find _ (Js.split ";" cookies)) as [ tokenCookie | ];
    [ | discriminate ].
  destruct (nth_error (Js.split "=" tokenCookie) 1) as [ token | ];
    [ | discriminate ].
  destruct (jwt_verify token) as [ verified | ] eqn:Hverify; [ | discriminate ].
  inversion H; subst. exists token. exact Hverify.
Qed.

Lemma Forall_remove_first (P : Row.t -> Prop) q rows :
  Forall P rows -> Forall P (Mongo.remove_first q rows).
Proof.
  induction 1 as [ | r rows Hr Hrows IH ]; simpl; [ constructor | ].
  destruct (Mongo.matches q r); [ assumption | constructor; assumption ].
Qed.

Lemma step_authors w ev r w' outs :
  registry_ok jwt_verify w ->
  Forall (verified_author jwt_verify) (Mongo.docs (System.store w)) ->
  System.step jwt_verify w ev = (r, w', outs) ->
  Forall (verified_author jwt_verify) (Mongo.docs (System.store w')).
Proof.
  intros Hok Hall Hstep.
  destruct ev as [ hs rec avail | sid msg now avail | sid messageId avail | sid ];
    simpl in Hstep.
  - destruct (Server.io_use jwt_verify hs).
    + inversion Hstep; subst. exact Hall.
    + rewrite handle_connection in Hstep. inversion Hstep; subst. exact Hall.
  - destruct (System.lookup sid w) as [ socket | ] eqn:Hlookup.
    + rewrite handle_chat in Hstep. destruct (available avail);
        inversion Hstep; subst; [ | exact Hall ].
      simpl. apply Forall_app. split; [ exact Hall | ].
      constructor; [ | constructor ].
      apply lookup_In in Hlookup. destruct Hlookup as [Hin _].
      unfold registry_ok in Hok. rewrite Forall_forall in Hok.
      destruct (Hok _ Hin) as [_ Huse].
      destruct (io_use_verified _ _ Huse) as [token Htoken].
      exists token, (Socket.user socket). split; [ exact Htoken | reflexivity ].
    + inversion Hstep; subst. exact Hall.
  - destruct (System.lookup sid w) as [ socket | ].
    + rewrite handle_delete in Hstep. inversion Hstep; subst. simpl.
      unfold delete_result.
      destruct (Bson.new_ObjectId messageId); [ | exact Hall ].
      destruct (available avail); [ | exact Hall ].
      destruct (authorised socket a (System.store w)); [ | exact Hall ].
      destruct (available (tl avail)); [ | exact Hall ].
      simpl. apply Forall_remove_first. exact Hall.
    + inversion Hstep; subst. exact Hall.
  - destruct (System.lookup sid w); inversion Hstep; subst; exact Hall.
Qed.

Lemma run_authors evs : forall w r w' outs,
  registry_ok jwt_verify w ->
  Forall (verified_author jwt_verify) (Mongo.docs (System.store w)) ->
  System.run jwt_verify w evs = (r, w', outs) ->
  Forall (verified_author jwt_verify) (Mongo.docs (System.store w')).
Proof.
  induction evs as [ | ev evs IH ]; intros w r w' outs Hok Hall; simpl.
  - intros H; inversion H; subst. exact Hall.
  - destruct (System.step jwt_verify w ev) as [[r1 w1] outs1] eqn:Hstep.
    pose proof (step_registry_ok _ _ _ _ _ _ Hok Hstep) as Hok1.
    pose proof (step_authors _ _ _ _ _ Hok Hall Hstep) as Hall1.
    destruct r1.
    + destruct (System.run jwt_verify w1 evs) as [[r2 w2] outs2] eqn:Hrun.
      intros H; inversion H; subst. eapply IH; eassumption.
    + intros H; inversion H; subst. exact Hall1.
Qed.

End Authors.

(** X6: after any sequence of events on the authenticated server, every
    message in the log carries as author the username of a token that
    [jwt.verify] accepts: no event sequence stores a name that no verified
    token carries. *)
Theorem log_authors_are_verified
  (jwt_verify : string -> option User) (evs : list System.Event) :
  Forall (verified_author jwt_verify)
    (Mongo.docs (System.store (snd (fst (System.run jwt_verify System.init evs))))).
Proof.
  destruct (System.run jwt_verify System.init evs) as [[r w] outs] eqn:Hrun.
  simpl. eapply run_authors; [ apply registry_ok_init | constructor | exact Hrun ].
Qed.


(** ** Who receives what *)

Lemma delivered_replayed connected socket rows sid :
  sid <> Socket.sid socket ->
  System.delivered connected (map (replayed socket) rows) sid = [].
Proof.
  intros Hne. induction rows as [ | row rows IH ]; simpl; [ reflexivity | ].
  destruct (Nat.eqb (Socket.sid socket) sid) eqn:E.
  - apply Nat.eqb_eq in E. congruence.
  - exact IH.
Qed.

(** X8: a stored ['chat message'] is delivered, once and with the id it was
    stored under, to every connected socket, the sender included, and to no
    socket that is not connected. *)
Theorem broadcast_reaches_everyone
  (jwt_verify : string -> option User) (w : System.World) (sid : nat)
  (socket : Socket.t) (msg : string) (now : Date) (avail : list bool)
  (receiver : nat) :
  System.lookup sid w = Some socket ->
  available avail = true ->
  let packet :=
    chat_message msg (Bson.toString (Mongo.next_id (System.store w)))
      (username (Socket.user socket)) (Some now) in
  let outs := snd (System.step jwt_verify w (System.chat sid msg now avail)) in
  System.delivered (System.sockets w) outs sid = [packet]
  /\ System.delivered (System.sockets w) outs receiver
     = if existsb (fun s => Nat.eqb (Socket.sid s) receiver) (System.sockets w)
       then [packet] else [].
Proof.
  intros Hlookup Hav packet outs.
  assert (Houts : outs = [io_emit packet]).
  { unfold outs. simpl. rewrite Hlookup, handle_chat, Hav. reflexivity. }
  assert (Hsender :
    existsb (fun s => Nat.eqb (Socket.sid s) sid) (System.sockets w) = true).
  { apply lookup_In in Hlookup. destruct Hlookup as [Hin Hsid].
    apply existsb_exists. exists socket. split; [ exact Hin | ].
    apply Nat.eqb_eq. exact Hsid. }
  rewrite Houts. unfold System.delivered. simpl. rewrite !app_nil_r.
  rewrite Hsender. split; reflexivity.
Qed.

Lemma broadcast_reaches_everyone_witness :
  System.lookup 0 Sample.lobby = Some Sample.alice_socket
  /\ System.delivered (System.sockets Sample.lobby)
       (snd (System.step Sample.jwt_verify Sample.lobby
               (System.chat 0 "hi" 1000%N []))) 0
     = [chat_message "hi" (Bson.toString 0%N) "alice" (Some 1000%N)].
Proof.
  split; [ reflexivity | ].
  exact (proj1 (broadcast_reaches_everyone Sample.jwt_verify Sample.lobby 0
                  Sample.alice_socket "hi" 1000%N [] 1 eq_refl eq_refl)).
Defined.

(** X9: what the connection handler sends reaches the connecting socket
    only: no other connection receives a replayed message. *)
Theorem replay_is_private
  (socket : Socket.t) (c : Mongo.Collection) (avail : list bool)
  (connected : list Socket.t) (sid : nat) :
  sid <> Socket.sid socket ->
  System.delivered connected (snd (exec (Server.on_connection socket) c avail))
    sid = [].
Proof.
  intros Hne. rewrite exec_on_connection. simpl.
  unfold replay_outputs.
  destruct (Socket.recovered socket); [ reflexivity | ].
  destruct (replay_query _); [ | reflexivity ].
  destruct (available avail); [ | reflexivity ].
  apply delivered_replayed. exact Hne.
Qed.

Lemma replay_is_private_witness :
  0 <> Socket.sid (Sample.bob_socket Offset.zero false)
  /\ System.delivered [Sample.alice_socket; Sample.bob_socket Offset.zero false]
       (snd (exec (Server.on_connection (Sample.bob_socket Offset.zero false))
               Sample.one_message [])) 0
     = [].
Proof.
  assert (H : 0 <> Socket.sid (Sample.bob_socket Offset.zero false))
    by discriminate.
  split; [ exact H | ].
  apply (replay_is_private (Sample.bob_socket Offset.zero false)
           Sample.one_message []
           [Sample.alice_socket; Sample.bob_socket Offset.zero false] 0 H).
Defined.

(** ** Sending, deleting, reconnecting *)

Section RoundTrips.

Local Open Scope N_scope.

Lemma remove_first_snoc q rows row :
  Forall (fun r => Mongo.matches q r = false) rows ->
  Mongo.matches q row = true ->
  Mongo.remove_first q (rows ++ [row]) = rows.
Proof.
  induction 1 as [ | r rows Hr _ IH ]; intros Hrow; simpl.
  - rewrite Hrow. reflexivity.
  - rewrite Hr, IH by assumption. reflexivity.
Qed.

Lemma next_id_unused c :
  wf c ->
  Forall (fun r => Mongo.matches (Mongo.IdEq (Mongo.next_id c)) r = false)
    (Mongo.docs c).
Proof.
  intros [_ Hb]. unfold ids in Hb. rewrite Forall_map in Hb.
  eapply Forall_impl; [ | exact Hb ]. simpl. intros r Hr.
  apply N.eqb_neq. lia.
Qed.

Lemma sorted_snoc_inv (l : list N) x :
  StronglySorted N.lt (l ++ [x]) -> Forall (fun y => y < x) l.
Proof.
  induction l as [ | a l IH ]; simpl; intros H; [ constructor | ].
  apply StronglySorted_inv in H. destruct H as [Hs Ha].
  constructor; [ | apply IH; exact Hs ].
  rewrite Forall_forall in Ha. apply Ha. apply in_or_app. right. left.
  reflexivity.
Qed.

Lemma replay_query_shape o q :
  replay_query o = Ok q -> q = Mongo.All \/ exists k, q = Mongo.IdGt k.
Proof.
  unfold replay_query. destruct o as [ | | s ]; intros H;
    try (inversion H; left; reflexivity).
  destruct (Js.truthy s); [ | inversion H; left; reflexivity ].
  destruct (Bson.new_ObjectId s) as [ k | ]; inversion H.
  right. exists k. reflexivity.
Qed.

(** The last row a replay sends is the newest row of the log. *)
Lemma replay_ends_with_newest c q older row :
  wf c ->
  q = Mongo.All \/ (exists k, q = Mongo.IdGt k) ->
  Mongo.find q c = older ++ [row] ->
  Mongo.find (Mongo.IdGt (Row._id row)) c = [].
Proof.
  intros [Hsorted _] Hq Hfind.
  assert (Hin : In row (Mongo.find q c)).
  { rewrite Hfind. apply in_or_app. right. left. reflexivity. }
  unfold Mongo.find in Hin. apply filter_In in Hin. destruct Hin as [_ Hrow].
  assert (Hres : StronglySorted N.lt (map Row._id (older ++ [row]))).
  { rewrite <- Hfind. unfold Mongo.find. apply sorted_ids_filter. exact Hsorted. }
  rewrite map_app in Hres. simpl in Hres. apply sorted_snoc_inv in Hres.
  unfold Mongo.find.
  destruct (filter (Mongo.matches (Mongo.IdGt (Row._id row))) (Mongo.docs c))
    as [ | newer rest ] eqn:E; [ reflexivity | exfalso ].
  assert (Hnewer : In newer (filter (Mongo.matches (Mongo.IdGt (Row._id row)))
                               (Mongo.docs c))).
  { rewrite E. left. reflexivity. }
  apply filter_In in Hnewer. destruct Hnewer as [Hdoc Hgt].
  simpl in Hgt. apply N.ltb_lt in Hgt.
  assert (Hsent : In newer (older ++ [row])).
  { rewrite <- Hfind. unfold Mongo.find. apply filter_In. split; [ exact Hdoc | ].
    destruct Hq as [ -> | [k ->] ]; [ reflexivity | ].
    simpl in *. apply N.ltb_lt in Hrow. apply N.ltb_lt. lia. }
  apply in_app_or in Hsent. destruct Hsent as [ Hold | [ <- | [] ] ]; [ | lia ].
  rewrite Forall_forall in Hres.
  specialize (Hres (Row._id newer) (in_map Row._id _ _ Hold)). lia.
Qed.

Lemma delivered_own_replay socket rows :
  System.delivered [socket] (map (replayed socket) rows) (Socket.sid socket)
  = map packet_of rows.
Proof.
  induction rows as [ | row rows IH ]; simpl; [ reflexivity | ].
  rewrite Nat.eqb_refl. simpl. f_equal. exact IH.
Qed.

Lemma receive_replay o older row :
  Browser.receive o (map packet_of (older ++ [row]))
  = Offset.last_seen (Bson.toString (Row._id row)).
Proof.
  unfold Browser.receive. rewrite map_app, fold_left_app. reflexivity.
Qed.

Lemma snoc_or_nil {A} (l : list A) : l = [] \/ exists older x, l = older ++ [x].
Proof.
  destruct l as [ | a l ]; [ left; reflexivity | right ].
  destruct (exists_last (l := a :: l)) as [older [x H]]; [ discriminate | ].
  exists older, x. exact H.
Qed.

End RoundTrips.

(** X10: a message sent and then deleted by its sender with the id of the
    broadcast leaves the documents of the log as they were; the id is used
    up.  The id string of the broadcast is one the constructor reads back,
    as long as ids fit in twelve bytes. *)
Theorem send_then_delete
  (jwt_verify : string -> option User) (evs : list System.Event)
  (w : System.World) (outs : list Output) (sid : nat) (socket : Socket.t)
  (msg : string) (now : Date) :
  System.run jwt_verify System.init evs = (Ok tt, w, outs) ->
  System.lookup sid w = Some socket ->
  (Mongo.next_id (System.store w) < 16 ^ 24)%N ->
  let id := Bson.toString (Mongo.next_id (System.store w)) in
  let sent := System.step jwt_verify w (System.chat sid msg now []) in
  snd sent
  = [io_emit (chat_message msg id (username (Socket.user socket)) (Some now))]
  /\ System.step jwt_verify (snd (fst sent)) (System.delete sid id [])
     = (Ok tt,
        {| System.store :=
             {| Mongo.docs := Mongo.docs (System.store w);
                Mongo.next_id := N.succ (Mongo.next_id (System.store w)) |};
           System.sockets := System.sockets w;
           System.next_sid := System.next_sid w |},
        [io_emit (message_deleted id)]).
Proof.
  intros Hrun Hlookup Hfits id sent.
  pose proof (run_wf jwt_verify evs _ _ _ Hrun) as Hwf.
  pose proof (next_id_unused _ Hwf) as Hunused.
  assert (Hsent :
    sent
    = (Ok tt,
       {| System.store :=
            snd (Mongo.insertOne (stored socket msg now) (System.store w));
          System.sockets := System.sockets w;
          System.next_sid := System.next_sid w |},
       [io_emit (chat_message msg id (username (Socket.user socket)) (Some now))])).
  { unfold sent. simpl. rewrite Hlookup, handle_chat. reflexivity. }
  rewrite Hsent. split; [ reflexivity | ].
  cbn [fst snd].
  remember {| System.store :=
                snd (Mongo.insertOne (stored socket msg now) (System.store w));
              System.sockets := System.sockets w;
              System.next_sid := System.next_sid w |} as w1 eqn:Hw1.
  assert (Hlookup1 : System.lookup sid w1 = Some socket)
    by (subst w1; exact Hlookup).
  simpl System.step. rewrite Hlookup1, handle_delete. subst w1.
  unfold delete_result, authorised, id.
  rewrite (new_ObjectId_toString _ Hfits). simpl available.
  unfold Mongo.findOne, Mongo.deleteOne. simpl.
  rewrite (find_piece _ _ _ [] Hunused)
    by (simpl; apply N.eqb_refl).
  simpl Row.user. rewrite String.eqb_refl.
  rewrite remove_first_snoc by (try assumption; simpl; apply N.eqb_refl).
  reflexivity.
Qed.

Lemma send_then_delete_witness :
  System.run Sample.jwt_verify System.init Sample.history
  = (Ok tt, Sample.chatting,
     [greeting Sample.alice_socket;
      io_emit (chat_message "hi" (Bson.toString 0%N) "alice" (Some 1000%N))])
  /\ snd (System.step Sample.jwt_verify Sample.chatting
            (System.chat 0 "oops" 2000%N []))
     = [io_emit (chat_message "oops" (Bson.toString 1%N) "alice" (Some 2000%N))].
Proof.
  split; [ reflexivity | ].
  exact (proj1 (send_then_delete Sample.jwt_verify Sample.history Sample.chatting
                  [greeting Sample.alice_socket;
                   io_emit (chat_message "hi" (Bson.toString 0%N) "alice"
                              (Some 1000%N))]
                  0 Sample.alice_socket "oops" 2000%N
                  eq_refl eq_refl eq_refl)).
Defined.

(** X11: a client that has caught up needs no second replay.  After a
    fresh connection whose replay the store answered, the client's offset is
    the id of the last message it was sent; a fresh reconnection that
    declares the offset so reached is sent no message at all. *)
Theorem reconnect_replays_nothing
  (jwt_verify : string -> option User) (evs : list System.Event)
  (w : System.World) (outs : list Output) (socket : Socket.t)
  (avail avail' : list bool) :
  System.run jwt_verify System.init evs = (Ok tt, w, outs) ->
  (Mongo.next_id (System.store w) <= 16 ^ 24)%N ->
  Socket.recovered socket = false ->
  available avail = true ->
  let c := System.store w in
  let first := snd (exec (Server.on_connection socket) c avail) in
  let reached :=
    Browser.receive (Handshake.serverOffset (Socket.handshake socket))
      (System.delivered [socket] first (Socket.sid socket)) in
  let again :=
    with_handshake socket
      (Browser.reconnect (Socket.handshake socket) reached) in
  wire (snd (exec (Server.on_connection again) c avail')) = [].
Proof.
  intros Hrun Hfits Hfresh Hav c first reached again.
  pose proof (run_wf jwt_verify evs _ _ _ Hrun) as Hwf. fold c in Hwf.
  assert (Hfirst : first = greeting socket :: replay_outputs socket c avail)
    by (unfold first; rewrite exec_on_connection; reflexivity).
  rewrite exec_on_connection. simpl snd.
  unfold replay_outputs at 1.
  change (Socket.recovered again) with (Socket.recovered socket).
  rewrite Hfresh.
  change (Handshake.serverOffset (Socket.handshake again)) with reached.
  unfold replay_outputs in Hfirst. rewrite Hfresh, Hav in Hfirst.
  destruct (replay_query (Handshake.serverOffset (Socket.handshake socket)))
    as [ q | e ] eqn:Hq.
  - assert (Hreached :
      reached
      = Browser.receive (Handshake.serverOffset (Socket.handshake socket))
          (map packet_of (Mongo.find q c))).
    { unfold reached. rewrite Hfirst. f_equal.
      change (System.delivered [socket]
                (greeting socket :: map (replayed socket) (Mongo.find q c))
                (Socket.sid socket))
        with (System.delivered [socket]
                (map (replayed socket) (Mongo.find q c)) (Socket.sid socket)).
      apply delivered_own_replay. }
    rewrite Hreached.
    destruct (snoc_or_nil (Mongo.find q c)) as [ Hnone | [older [row Hsome]] ].
    + rewrite Hnone. simpl Browser.receive.
      rewrite Hq, Hnone. destruct (available avail'); reflexivity.
    + rewrite Hsome, receive_replay.
      assert (Hin : In row (Mongo.docs c)).
      { assert (H : In row (Mongo.find q c))
          by (rewrite Hsome; apply in_or_app; right; left; reflexivity).
        unfold Mongo.find in H. apply filter_In in H. tauto. }
      assert (Hid : (Row._id row < 16 ^ 24)%N).
      { destruct Hwf as [_ Hb]. rewrite Forall_forall in Hb.
        specialize (Hb _ (in_map Row._id _ _ Hin)). simpl in Hb.
        fold c in Hfits. lia. }
      unfold replay_query.
      rewrite (new_ObjectId_truthy _ _ (new_ObjectId_toString _ Hid)).
      rewrite (new_ObjectId_toString _ Hid).
      rewrite (replay_ends_with_newest c q older row Hwf
                 (replay_query_shape _ _ Hq) Hsome).
      destruct (available avail'); reflexivity.
  - assert (Hreached :
      reached = Handshake.serverOffset (Socket.handshake socket)).
    { unfold reached. rewrite Hfirst. reflexivity. }
    rewrite Hreached, Hq. reflexivity.
Qed.

Lemma reconnect_replays_nothing_witness :
  System.run Sample.jwt_verify System.init Sample.history
  = (Ok tt, Sample.chatting,
     [greeting Sample.alice_socket;
      io_emit (chat_message "hi" (Bson.toString 0%N) "alice" (Some 1000%N))])
  /\ Browser.receive Offset.zero
       (System.delivered [Sample.bob_socket Offset.zero false]
          (snd (exec (Server.on_connection (Sample.bob_socket Offset.zero false))
                  Sample.one_message [])) 1)
     = Offset.last_seen (Bson.toString 0%N)
  /\ wire (snd (exec (Server.on_connection
                        (Sample.bob_socket
                           (Offset.last_seen (Bson.toString 0%N)) false))
                  Sample.one_message []))
     = [].
Proof.
  split; [ reflexivity | ]. split; [ reflexivity | ].
  exact (reconnect_replays_nothing Sample.jwt_verify Sample.history
           Sample.chatting
           [greeting Sample.alice_socket;
            io_emit (chat_message "hi" (Bson.toString 0%N) "alice" (Some 1000%N))]
           (Sample.bob_socket Offset.zero false) [] []
           eq_refl ltac:(vm_compute; discriminate) eq_refl eq_refl).
Defined.

(** ** The server without authentication *)

Lemma exec_standalone_connection guest c avail :
  exec (Standalone.on_connection guest) c avail
  = (Ok tt, c, standalone_outputs guest c avail).
Proof.
  unfold exec, Standalone.on_connection, standalone_outputs, replay_query.
  unfold bind at 1, emit at 1. simpl.
  destruct (Standalone.recovered guest); simpl; [ reflexivity | ].
  unfold try_catch, bind at 1.
  destruct (Handshake.serverOffset (Standalone.handshake guest)) as [ | | s ].
  1, 2: unfold ret, bind, find, await; simpl;
        destruct avail as [ | [ | ] rest ]; simpl;
        try rewrite forEach_emit; reflexivity.
  destruct (Js.truthy s).
  - unfold bind, new_ObjectId, lift, ret.
    destruct (Bson.new_ObjectId s) as [ oid | e ]; simpl; [ | reflexivity ].
    unfold find, await; simpl.
    destruct avail as [ | [ | ] rest ]; simpl;
      try rewrite forEach_emit; reflexivity.
  - unfold ret, bind, find, await; simpl.
    destruct avail as [ | [ | ] rest ]; simpl;
      try rewrite forEach_emit; reflexivity.
Qed.

Lemma wire_replayed socket rows :
  wire (map (replayed socket) rows) = map (replayed socket) rows.
Proof.
  induction rows as [ | row rows IH ]; simpl; [ reflexivity | ].
  f_equal. exact IH.
Qed.

(** X12: on [src/server/index.js], too, a failed insert drops the message:
    the handler returns normally, the collection is unchanged, nothing is
    broadcast, and the only output is the server's error line. *)
Theorem standalone_failed_insert_drops_message
  (guest : Standalone.Socket) (msg : string) (c : Mongo.Collection)
  (avail : list bool) :
  available avail = false ->
  exec (Standalone.on_chat_message guest msg) c avail
  = (Ok tt, c, [console error "" (Some MongoError)])
  /\ broadcasts (snd (exec (Standalone.on_chat_message guest msg) c avail)) = []
  /\ wire (snd (exec (Standalone.on_chat_message guest msg) c avail)) = [].
Proof.
  intros Hav. rewrite exec_standalone_chat_unavailable by assumption.
  repeat split.
Qed.

Lemma standalone_failed_insert_drops_message_witness :
  available [false] = false
  /\ exec (Standalone.on_chat_message (Sample.guest None) "hi") Mongo.empty [false]
     = (Ok tt, Mongo.empty, [console error "" (Some MongoError)]).
Proof.
  split; [ reflexivity | ].
  apply (standalone_failed_insert_drops_message (Sample.guest None) "hi"
           Mongo.empty [false] eq_refl).
Defined.

(** X13: for the same handshake, the connection handler of
    [src/server/index.js] sends the connecting socket the same rows, in the
    same order, as the one of [src/index.js], each without its timestamp;
    it leaves the collection alone and returns normally. *)
Theorem standalone_replays_the_same_rows
  (socket : Socket.t) (guest : Standalone.Socket) (c : Mongo.Collection)
  (avail : list bool) :
  Standalone.sid guest = Socket.sid socket ->
  Standalone.handshake guest = Socket.handshake socket ->
  Standalone.recovered guest = Socket.recovered socket ->
  fst (exec (Standalone.on_connection guest) c avail) = (Ok tt, c)
  /\ wire (snd (exec (Standalone.on_connection guest) c avail))
     = map without_timestamp
         (wire (snd (exec (Server.on_connection socket) c avail))).
Proof.
  intros Hsid Hhs Hrec.
  rewrite exec_standalone_connection, exec_on_connection.
  split; [ reflexivity | ].
  unfold standalone_outputs, replay_outputs. rewrite Hsid, Hhs, Hrec. simpl.
  destruct (Socket.recovered socket); [ reflexivity | ].
  destruct (replay_query _) as [ q | e ]; [ | reflexivity ].
  destruct (available avail); [ | reflexivity ].
  rewrite wire_replayed, map_map. simpl.
  induction (Mongo.find q c) as [ | row rows IH ]; simpl; [ reflexivity | ].
  f_equal. exact IH.
Qed.

Lemma standalone_replays_the_same_rows_witness :
  wire (snd (exec (Standalone.on_connection (Fixture.bob_guest Offset.zero))
               Sample.one_message []))
  = [socket_emit 1 (chat_message "hi" (Bson.toString 0%N) "alice" None)].
Proof.
  exact (proj2 (standalone_replays_the_same_rows
                  (Sample.bob_socket Offset.zero false)
                  (Fixture.bob_guest Offset.zero) Sample.one_message []
                  eq_refl eq_refl eq_refl)).
Defined.

(** ** Accounts *)

Section Accounts.

Variable bcrypt_hash : string -> N -> string.

Lemma validated_username u name :
  Validation.username u = inr name ->
  u = text name /\ 3 <= String.length name.
Proof.
  unfold Validation.username. destruct u as [ s | ]; [ | discriminate ].
  destruct (String.length s <? 3)%nat eqn:E; [ discriminate | ].
  intros H. inversion H; subst. apply Nat.ltb_ge in E. auto.
Qed.

Lemma validated_password p pw :
  Validation.password p = inr pw ->
  p = text pw /\ 6 <= String.length pw.
Proof.
  unfold Validation.password. destruct p as [ s | ]; [ | discriminate ].
  destruct (String.length s <? 6)%nat eqn:E; [ discriminate | ].
  intros H. inversion H; subst. apply Nat.ltb_ge in E. auto.
Qed.


Lemma findOne_some name db user :
  UserRepository.findOne name db = Some user ->
  In user db /\ Account.username user = name.
Proof.
  unfold UserRepository.findOne. intros H. apply find_some in H.
  destruct H as [Hin Heq]. apply String.eqb_eq in Heq. auto.
Qed.


Lemma findOne_new name db user :
  UserRepository.findOne name db = None ->
  Account.username user = name ->
  UserRepository.findOne name (db ++ [user]) = Some user.
Proof.
  unfold UserRepository.findOne. intros Hnone Hname.
  induction db as [ | u db IH ]; simpl in *.
  - rewrite Hname, String.eqb_refl. reflexivity.
  - destruct (String.eqb (Account.username u) name); [ discriminate | auto ].
Qed.

(** What a successful [create] has checked and done. *)
Lemma create_inversion db u p uuid salt id db' :
  UserRepository.create bcrypt_hash db u p uuid salt = inr (id, db') ->
  exists name pw,
    u = text name /\ p = text pw
    /\ 3 <= String.length name /\ 6 <= String.length pw
    /\ UserRepository.findOne name db = None
    /\ id = uuid
    /\ db' = db ++ [ {| Account._id := uuid;
                        Account.username := name;
                        Account.password := bcrypt_hash pw salt |} ].
Proof.
  unfold UserRepository.create. intros H.
  destruct (Validation.username u) as [ e | name ] eqn:Hu; [ discriminate | ].
  destruct (Validation.password p) as [ e | pw ] eqn:Hp; [ discriminate | ].
  destruct (UserRepository.findOne name db) eqn:Hfind; [ discriminate | ].
  inversion H; subst.
  apply validated_username in Hu. apply validated_password in Hp.
  destruct Hu as [Hu Hlen]. destruct Hp as [Hp Hlen'].
  exists name, pw. repeat split; assumption.
Qed.


End Accounts.

(** X14: [create] and [login] check their input before they look at the
    database: a call that succeeds was given a username that is a string of
    at least 3 characters and a password that is a string of at least 6, and
    a username that fails its check makes both throw that check's error,
    whatever the password and the database are. *)
Theorem repository_validates_input
  (bcrypt_hash : string -> N -> string)
  (bcrypt_compare : string -> string -> bool)
  (db : list Account.t) (u p : Input) (uuid : string) (salt : N) :
  (forall id db',
      UserRepository.create bcrypt_hash db u p uuid salt = inr (id, db') ->
      exists name pw,
        u = text name /\ p = text pw
        /\ 3 <= String.length name /\ 6 <= String.length pw)
  /\ (forall public,
        UserRepository.login bcrypt_compare db u p = inr public ->
        exists name pw,
          u = text name /\ p = text pw
          /\ 3 <= String.length name /\ 6 <= String.length pw)
  /\ (forall e,
        Validation.username u = inl e ->
        UserRepository.create bcrypt_hash db u p uuid salt = inl e
        /\ UserRepository.login bcrypt_compare db u p = inl e).
Proof.
  split; [ | split ].
  - intros id db' H. apply create_inversion in H.
    destruct H as [name [pw [Hu [Hp [Hlen [Hlen' _]]]]]].
    exists name, pw. repeat split; assumption.
  - unfold UserRepository.login. intros public H.
    destruct (Validation.username u) as [ e | name ] eqn:Hu; [ discriminate | ].
    destruct (Validation.password p) as [ e | pw ] eqn:Hp; [ discriminate | ].
    apply validated_username in Hu. apply validated_password in Hp.
    destruct Hu as [Hu Hlen]. destruct Hp as [Hp Hlen'].
    exists name, pw. repeat split; assumption.
  - intros e He. unfold UserRepository.create, UserRepository.login.
    rewrite He. split; reflexivity.
Qed.

Lemma repository_validates_input_witness :
  UserRepository.create Fixture.bcrypt_hash [] (text "al") (text "secret-1")
    "u-9" 7%N
  = inl "El nombre de usuario debe tener al menos 3 caracteres."
  /\ UserRepository.login Fixture.bcrypt_compare [] (text "al") (text "secret-1")
     = inl "El nombre de usuario debe tener al menos 3 caracteres.".
Proof.
  apply (proj2 (proj2 (repository_validates_input Fixture.bcrypt_hash
                         Fixture.bcrypt_compare [] (text "al") (text "secret-1")
                         "u-9" 7%N))).
  reflexivity.
Defined.


(** X16: an account that [create] has saved can log in: with the same
    username and password, [login] returns the id [create] returned and the
    username, provided [bcrypt.compare] accepts the password against the
    hash [bcrypt.hash] made of it. *)
Theorem create_then_login
  (bcrypt_hash : string -> N -> string)
  (bcrypt_compare : string -> string -> bool)
  (db db' : list Account.t) (name pw uuid id : string) (salt : N) :
  UserRepository.create bcrypt_hash db (text name) (text pw) uuid salt
  = inr (id, db') ->
  bcrypt_compare pw (bcrypt_hash pw salt) = true ->
  UserRepository.login bcrypt_compare db' (text name) (text pw)
  = inr {| Public._id := id; Public.username := name |}.
Proof.
  intros Hcreate Hcompare. apply create_inversion in Hcreate.
  destruct Hcreate as [name' [pw' [Hu [Hp [Hlen [Hlen' [Hnone [-> ->]]]]]]]].
  inversion Hu; inversion Hp; subst name' pw'.
  unfold UserRepository.login, Validation.username, Validation.password.
  apply Nat.ltb_ge in Hlen. apply Nat.ltb_ge in Hlen'. rewrite Hlen, Hlen'.
  rewrite (findOne_new name db
             {| Account._id := uuid;
                Account.username := name;
                Account.password := bcrypt_hash pw salt |} Hnone eq_refl).
  simpl. rewrite Hcompare. reflexivity.
Qed.

Lemma create_then_login_witness :
  UserRepository.create Fixture.bcrypt_hash [Fixture.carol] (text "dave")
    (text "secret-4") "u-4" 9%N
  = inr ("u-4",
         [Fixture.carol;
          {| Account._id := "u-4";
             Account.username := "dave";
             Account.password := Fixture.bcrypt_hash "secret-4" 9%N |}])
  /\ UserRepository.login Fixture.bcrypt_compare
       [Fixture.carol;
        {| Account._id := "u-4";
           Account.username := "dave";
           Account.password := Fixture.bcrypt_hash "secret-4" 9%N |}]
       (text "dave") (text "secret-4")
     = inr {| Public._id := "u-4"; Public.username := "dave" |}.
Proof.
  split; [ reflexivity | ].
  apply (create_then_login Fixture.bcrypt_hash Fixture.bcrypt_compare
           [Fixture.carol] _ "dave" "secret-4" "u-4" "u-4" 9%N);
    reflexivity.
Defined.

(** X17: [login] succeeds only for an account that is in the database
    under the given username and whose stored hash [bcrypt.compare] accepts
    for the given password; what it returns is that account's id and
    username. *)
Theorem login_sound
  (bcrypt_compare : string -> string -> bool)
  (db : list Account.t) (u p : Input) (public : Public.t) :
  UserRepository.login bcrypt_compare db u p = inr public ->
  exists name pw user,
    u = text name /\ p = text pw
    /\ In user db
    /\ Account.username user = name
    /\ bcrypt_compare pw (Account.password user) = true
    /\ public = {| Public._id := Account._id user;
                   Public.username := Account.username user |}.
Proof.
  unfold UserRepository.login. intros H.
  destruct (Validation.username u) as [ e | name ] eqn:Hu; [ discriminate | ].
  destruct (Validation.password p) as [ e | pw ] eqn:Hp; [ discriminate | ].
  destruct (UserRepository.findOne name db) as [ user | ] eqn:Hfind;
    [ | discriminate ].
  destruct (bcrypt_compare pw (Account.password user)) eqn:Hcompare;
    [ | discriminate ].
  inversion H; subst.
  apply validated_username in Hu. apply validated_password in Hp.
  apply findOne_some in Hfind.
  destruct Hu as [Hu _]. destruct Hp as [Hp _]. destruct Hfind as [Hin Hname].
  exists name, pw, user. repeat split; assumption.
Qed.

Lemma login_sound_witness :
  UserRepository.login Fixture.bcrypt_compare [Fixture.carol] (text "carol")
    (text "secret-3")
  = inr {| Public._id := "u-3"; Public.username := "carol" |}
  /\ exists name pw user,
       text "carol" = text name /\ text "secret-3" = text pw
       /\ In user [Fixture.carol]
       /\ Account.username user = name
       /\ Fixture.bcrypt_compare pw (Account.password user) = true
       /\ {| Public._id := "u-3"; Public.username := "carol" |}
          = {| Public._id := Account._id user;
               Public.username := Account.username user |}.
Proof.
  split; [ reflexivity | ].
  apply (login_sound Fixture.bcrypt_compare [Fixture.carol] (text "carol")
           (text "secret-3")).
  reflexivity.
Defined.



(** ** The HTTP routes *)

Lemma io_use_single_cookie
  (jwt_verify : string -> option User) (token : string)
  (auth_username : option string) (serverOffset : Offset.t) :
  lacks ";" token = true ->
  lacks "=" token = true ->
  Server.io_use jwt_verify
    {| Handshake.cookie := Some ("access_token=" ++ token)%string;
       Handshake.auth_username := auth_username;
       Handshake.serverOffset := serverOffset |}
  = match jwt_verify token with
    | Some user => inr user
    | None => inl Server.invalid_token
    end.
Proof.
  intros Hsemi Heq.
  set (cookies := ("access_token=" ++ token)%string).
  assert (Hlacks : lacks ";" cookies = true)
    by (unfold cookies; rewrite lacks_app, Hsemi; reflexivity).
  unfold Server.io_use. simpl Handshake.cookie. cbv iota beta.
  rewrite (split_lacks _ _ Hlacks).
  change (Js.truthy cookies) with true. simpl negb. cbv iota.
  pose proof (token_cookie_matches EmptyString token (or_introl eq_refl))
    as Hmatch.
  change ("" ++ "access_token=" ++ token)%string with cookies in Hmatch.
  simpl List.find. rewrite Hmatch.
  pose proof (token_cookie_value EmptyString token EmptyString
                (or_introl eq_refl) Heq (or_introl eq_refl)) as Hvalue.
  replace (token ++ "")%string with token in Hvalue
    by (clear; induction token; simpl; congruence).
  change ("" ++ "access_token=" ++ token)%string with cookies in Hvalue.
  rewrite Hvalue. reflexivity.
Qed.

(** X19: the pages [/chat] and [/protected] are rendered for a user
    exactly when the request carries a non-empty [access_token] cookie that
    [jwt.verify] accepts, and then for the user of that token; any other
    request to [/chat] is redirected to [/] and to [/protected] is answered
    with status 403. *)
Theorem pages_need_a_verified_token
  (jwt_verify : string -> option User) (req : Http.Request) :
  (forall token user,
      Http.cookie_access_token req = Some token ->
      Js.truthy token = true ->
      jwt_verify token = Some user ->
      Http.get_chat jwt_verify req
      = Http.plain 200 (Http.render "chat" (Some user))
      /\ Http.get_protected jwt_verify req
         = Http.plain 200 (Http.render "protected" (Some user)))
  /\ ((forall token,
         Http.cookie_access_token req = Some token ->
         Js.truthy token = true ->
         jwt_verify token = None) ->
      Http.get_chat jwt_verify req = Http.plain 302 (Http.redirect "/")
      /\ Http.status (Http.get_protected jwt_verify req) = 403)
  /\ (forall view user,
        Http.body (Http.get_chat jwt_verify req) = Http.render view (Some user)
        \/ Http.body (Http.get_protected jwt_verify req)
           = Http.render view (Some user) ->
        exists token,
          Http.cookie_access_token req = Some token
          /\ Js.truthy token = true
          /\ jwt_verify token = Some user).
Proof.
  unfold Http.get_chat, Http.get_protected, Http.session.
  split; [ | split ].
  - intros token user Hcookie Htruthy Hverify.
    rewrite Hcookie, Htruthy, Hverify. split; reflexivity.
  - intros Hnone.
    destruct (Http.cookie_access_token req) as [ token | ];
      [ | split; reflexivity ].
    destruct (Js.truthy token) eqn:Htruthy; [ | split; reflexivity ].
    rewrite (Hnone token eq_refl Htruthy). split; reflexivity.
  - intros view user H.
    destruct (Http.cookie_access_token req) as [ token | ];
      [ | destruct H as [ H | H ]; discriminate ].
    destruct (Js.truthy token) eqn:Htruthy;
      [ | destruct H as [ H | H ]; discriminate ].
    destruct (jwt_verify token) as [ data | ] eqn:Hverify;
      [ | destruct H as [ H | H ]; discriminate ].
    assert (Hdata : data = user)
      by (destruct H as [ H | H ]; simpl in H; inversion H; reflexivity).
    subst data. exists token. repeat split; assumption.
Qed.

Lemma pages_need_a_verified_token_witness :
  Http.get_chat Sample.jwt_verify
    {| Http.cookie_access_token := Some "alice.jwt";
       Http.body_username := not_text;
       Http.body_password := not_text |}
  = Http.plain 200 (Http.render "chat" (Some Sample.alice))
  /\ Http.get_chat Sample.jwt_verify
       {| Http.cookie_access_token := Some "forged";
          Http.body_username := not_text;
          Http.body_password := not_text |}
     = Http.plain 302 (Http.redirect "/").
Proof.
  split.
  - apply (proj1 (pages_need_a_verified_token Sample.jwt_verify
                    {| Http.cookie_access_token := Some "alice.jwt";
                       Http.body_username := not_text;
                       Http.body_password := not_text |})
             "alice.jwt" Sample.alice eq_refl eq_refl eq_refl).
  - apply (proj1 (proj2 (pages_need_a_verified_token Sample.jwt_verify
                           {| Http.cookie_access_token := Some "forged";
                              Http.body_username := not_text;
                              Http.body_password := not_text |}))).
    intros token Hcookie _. inversion Hcookie. reflexivity.
Defined.

(** X20: [/login] sets the [access_token] cookie only when the repository
    accepted the credentials: then the status is 200 and the cookie is the
    token signed for the id and username of the matching account, marked
    [httpOnly]; otherwise the status is 401, the body is the error and no
    cookie is set. *)
Theorem login_cookie_only_for_valid_credentials
  (jwt_sign : User -> Date -> string)
  (bcrypt_compare : string -> string -> bool) (production : bool)
  (db : list Account.t) (req : Http.Request) (now : Date) :
  match Http.cookie (Http.post_login jwt_sign bcrypt_compare production db req now) with
  | Some cookie =>
      Http.status (Http.post_login jwt_sign bcrypt_compare production db req now)
      = 200
      /\ Http.httpOnly cookie = true
      /\ exists name pw user,
           Http.body_username req = text name
           /\ Http.body_password req = text pw
           /\ In user db
           /\ Account.username user = name
           /\ bcrypt_compare pw (Account.password user) = true
           /\ Http.value cookie
              = jwt_sign {| id := Account._id user;
                            username := Account.username user |} now
  | None =>
      Http.status (Http.post_login jwt_sign bcrypt_compare production db req now)
      = 401
      /\ exists message,
           Http.body (Http.post_login jwt_sign bcrypt_compare production db req now)
           = Http.json_error message
  end.
Proof.
  unfold Http.post_login, UserRepository.login.
  destruct (Validation.username (Http.body_username req)) as [ e | name ] eqn:Hu;
    [ simpl; split; [ reflexivity | eexists; reflexivity ] | ].
  destruct (Validation.password (Http.body_password req)) as [ e | pw ] eqn:Hp;
    [ simpl; split; [ reflexivity | eexists; reflexivity ] | ].
  destruct (UserRepository.findOne name db) as [ user | ] eqn:Hfind;
    [ | simpl; split; [ reflexivity | eexists; reflexivity ] ].
  destruct (bcrypt_compare pw (Account.password user)) eqn:Hcompare;
    [ | simpl; split; [ reflexivity | eexists; reflexivity ] ].
  simpl. split; [ reflexivity | ]. split; [ reflexivity | ].
  apply validated_username in Hu. apply validated_password in Hp.
  apply findOne_some in Hfind.
  destruct Hu as [Hu _]. destruct Hp as [Hp _]. destruct Hfind as [Hin Hname].
  exists name, pw, user. repeat split; assumption.
Qed.

(** X21: from registration to the chat.  When [/register] answers 201, the
    account is in the database and the response carries a cookie; a socket
    handshake that presents this cookie is accepted by the chat's middleware
    and bound to the registered id and username, provided [jwt.verify]
    accepts the token [jwt.sign] issued for them and the token contains
    neither [;] nor [=]. *)
Theorem registered_user_joins_the_chat
  (jwt_verify : string -> option User) (jwt_sign : User -> Date -> string)
  (bcrypt_hash : string -> N -> string) (production : bool)
  (db : list Account.t) (req : Http.Request) (name uuid : string) (salt : N)
  (now : Date) (auth_username : option string) (serverOffset : Offset.t) :
  let registered := {| id := uuid; username := name |} in
  let response :=
    fst (Http.post_register jwt_sign bcrypt_hash production db req uuid salt now) in
  let db' :=
    snd (Http.post_register jwt_sign bcrypt_hash production db req uuid salt now) in
  Http.body_username req = text name ->
  Http.status response = 201 ->
  jwt_verify (jwt_sign registered now) = Some registered ->
  lacks ";" (jwt_sign registered now) = true ->
  lacks "=" (jwt_sign registered now) = true ->
  In name (map Account.username db')
  /\ Http.cookie response
     = Some (Http.access_cookie production (jwt_sign registered now))
  /\ Server.io_use jwt_verify
       {| Handshake.cookie :=
            Some ("access_token=" ++ jwt_sign registered now)%string;
          Handshake.auth_username := auth_username;
          Handshake.serverOffset := serverOffset |}
     = inr registered.
Proof.
  intros registered response db' Hname Hstatus Hverify Hsemi Heq.
  unfold response, db', Http.post_register in *.
  destruct (UserRepository.create bcrypt_hash db (Http.body_username req)
              (Http.body_password req) uuid salt) as [ e | [id db1] ] eqn:Hcreate;
    [ discriminate | ].
  apply create_inversion in Hcreate.
  destruct Hcreate as [name' [pw [Hu [_ [_ [_ [_ [-> ->]]]]]]]].
  rewrite Hname in Hu. inversion Hu; subst name'.
  split; [ | split ].
  - rewrite Hname. simpl. rewrite map_app. apply in_or_app. right. left.
    reflexivity.
  - rewrite Hname. reflexivity.
  - rewrite (io_use_single_cookie jwt_verify _ auth_username serverOffset
               Hsemi Heq).
    rewrite Hverify. reflexivity.
Qed.

Lemma registered_user_joins_the_chat_witness :
  Http.status
    (fst (Http.post_register Fixture.jwt_sign Fixture.bcrypt_hash false []
            {| Http.cookie_access_token := None;
               Http.body_username := text "alice";
               Http.body_password := text "secret-1" |}
            "u-1" 5%N 1000%N))
  = 201
  /\ Server.io_use Sample.jwt_verify
       {| Handshake.cookie := Some "access_token=alice.jwt";
          Handshake.auth_username := None;
          Handshake.serverOffset := Offset.zero |}
     = inr Sample.alice.
Proof.
  split; [ reflexivity | ].
  exact (proj2 (proj2
           (registered_user_joins_the_chat Sample.jwt_verify Fixture.jwt_sign
              Fixture.bcrypt_hash false []
              {| Http.cookie_access_token := None;
                 Http.body_username := text "alice";
                 Http.body_password := text "secret-1" |}
              "alice" "u-1" 5%N 1000%N None Offset.zero
              eq_refl eq_refl eq_refl eq_refl eq_refl))).
Defined.

Lemma findOne_known name db :
  In name (map Account.username db) ->
  exists user, UserRepository.findOne name db = Some user.
Proof.
  unfold UserRepository.findOne. intros Hin.
  apply in_map_iff in Hin. destruct Hin as [user [Hname Hin]].
  destruct (List.find (fun u => String.eqb (Account.username u) name) db)
    as [ found | ] eqn:E; [ exists found; reflexivity | ].
  apply (find_none _ _ E) in Hin. rewrite Hname, String.eqb_refl in Hin.
  discriminate.
Qed.

(** X22: registering a username that an account already has is refused:
    [/register] answers 400 with an error, sets no cookie and leaves the
    database as it was, whatever the password is. *)
Theorem taken_username_is_refused
  (jwt_sign : User -> Date -> string) (bcrypt_hash : string -> N -> string)
  (production : bool) (db : list Account.t) (req : Http.Request)
  (name uuid : string) (salt : N) (now : Date) :
  Http.body_username req = text name ->
  In name (map Account.username db) ->
  exists message,
    Http.post_register jwt_sign bcrypt_hash production db req uuid salt now
    = (Http.plain 400 (Http.json_error message), db).
Proof.
  intros Hname Hin. unfold Http.post_register, UserRepository.create.
  rewrite Hname.
  destruct (Validation.username (text name)) as [ e | name' ] eqn:Hu;
    [ exists e; reflexivity | ].
  apply validated_username in Hu. destruct Hu as [Hu _].
  inversion Hu; subst name'.
  destruct (Validation.password (Http.body_password req)) as [ e | pw ];
    [ exists e; reflexivity | ].
  destruct (findOne_known name db Hin) as [user Hfound]. rewrite Hfound.
  eexists. reflexivity.
Qed.

Lemma taken_username_is_refused_witness :
  In "carol" (map Account.username [Fixture.carol])
  /\ exists message,
       Http.post_register Fixture.jwt_sign Fixture.bcrypt_hash false
         [Fixture.carol]
         {| Http.cookie_access_token := None;
            Http.body_username := text "carol";
            Http.body_password := text "another-password" |}
         "u-5" 3%N 1000%N
       = (Http.plain 400 (Http.json_error message), [Fixture.carol]).
Proof.
  split; [ left; reflexivity | ].
  exact (taken_username_is_refused Fixture.jwt_sign Fixture.bcrypt_hash false
           [Fixture.carol]
           {| Http.cookie_access_token := None;
              Http.body_username := text "carol";
              Http.body_password := text "another-password" |}
           "carol" "u-5" 3%N 1000%N eq_refl (or_introl eq_refl)).
Defined.

(** ** The theme of the page *)

(** X23: on a page with the toggle button, a click switches the theme and
    saves the theme it shows; after a reload the page shows that theme
    again, whatever the system prefers and whatever the markup starts with,
    and a second click brings back the theme from before the first. *)
Theorem theme_survives_reload
  (page markup : Theme.Page) (os_dark : bool) :
  Theme.themeToggleButton page <> None ->
  let clicked := Theme.click page in
  Theme.dark_mode clicked = negb (Theme.dark_mode page)
  /\ Theme.themePreference clicked
     = Some (if Theme.dark_mode clicked then "dark" else "light")
  /\ Theme.dark_mode (Theme.load os_dark (Theme.reload markup clicked))
     = Theme.dark_mode clicked
  /\ (Theme.themeToggleButton markup <> None ->
      Theme.themeToggleButton (Theme.load os_dark (Theme.reload markup clicked))
      = Theme.themeToggleButton clicked)
  /\ Theme.dark_mode (Theme.click clicked) = Theme.dark_mode page.
Proof.
  destruct page as [dark [ text | ] saved]; simpl; [ intros _ | congruence ].
  destruct markup as [dark0 [ text0 | ] saved0];
    destruct dark; simpl; repeat split; try reflexivity; congruence.
Qed.

Lemma theme_survives_reload_witness :
  Theme.themeToggleButton Fixture.dark_page <> None
  /\ Theme.dark_mode (Theme.click Fixture.dark_page) = false
  /\ Theme.dark_mode
       (Theme.load true (Theme.reload Fixture.markup (Theme.click Fixture.dark_page)))
     = false.
Proof.
  assert (H : Theme.themeToggleButton Fixture.dark_page <> None) by discriminate.
  split; [ exact H | ].
  split.
  - exact (proj1 (theme_survives_reload Fixture.dark_page Fixture.markup true H)).
  - exact (proj1 (proj2 (proj2
             (theme_survives_reload Fixture.dark_page Fixture.markup true H)))).
Defined.
